(** * youtube_downloader: the download orchestrator of [youtube_downloader.py]

    A shallow embedding of the parts of the program that carry behaviour:
    the URL validator, the format selector, the tool locators, the yt-dlp
    process runner with its progress-line parser, the view-count formatter,
    the start / worker / completion cycle of a download, the metadata
    fetch, the progress hook and the centring of the window.

    Conventions.
    - A Python [str] is a [string]; its characters are the code points
      below 256.  On these, [\d] is [0-9] and [str.isspace] is the set
      listed in [Str.isspace].
    - A Python [float] is a finite binary64 number, [Float.binary64];
      [Float.round] is rounding to nearest, ties to even.
    - A Python exception is the message [str(e)] it carries.
    - [re] patterns are terms of [Re.regex]; [Re.rmatch] lists the matches
      that start at the head of the subject, in the order the backtracking
      engine tries them.
    - The operating system, the external tool and the [yt_dlp] package are
      a record of functions, [system]; a run of the tool is the lines
      read from it, the error that ended the reading, if any, and its exit
      code.
    - A worker thread is a computation over the callbacks it has posted
      with [root.after] and the tools it has invoked, [M]; the foreground
      runs the posted callbacks in order, [mainloop]. *)

From Stdlib Require Import ZArith Lia List Ascii String Bool SpecFloat.
From stdpp Require Import base strings list gmap pretty.
Import ListNotations.

Local Open Scope Z_scope.

#[local] Arguments String.append !s1 s2 : simpl nomatch.
#[local] Set Warnings "-register-all".

(** ** Strings *)

Module Str.

(** [strip_prefix l s]: the rest of [s] after the literal [l], when [s]
    starts with [l]. *)
Fixpoint strip_prefix (l s : string) : option string :=
  match l, s with
  | EmptyString, _ => Some s
  | String a l', String b s' =>
      if Ascii.eqb a b then strip_prefix l' s' else None
  | String _ _, EmptyString => None
  end.

(** All characters of [s] satisfy [p]. *)
Fixpoint all (p : ascii → bool) (s : string) : bool :=
  match s with
  | EmptyString => true
  | String c s' => p c && all p s'
  end.

(** Concatenation of a list of pieces. *)
Definition concat (ms : list string) : string := fold_right String.append "" ms.

(** The first [n] characters of [s]. *)
Fixpoint take (n : nat) (s : string) : string :=
  match n, s with
  | S n', String c s' => String c (take n' s')
  | _, _ => ""
  end.

(** [c in s] for a character [c]. *)
Fixpoint mem (c : ascii) (s : string) : bool :=
  match s with
  | EmptyString => false
  | String x s' => Ascii.eqb c x || mem c s'
  end.

(** [str.isspace] on one character (code points below 256). *)
Definition isspace (c : ascii) : bool :=
  let n := nat_of_ascii c in
  ((9 <=? n) && (n <=? 13) || (28 <=? n) && (n <=? 32)
   || (n =? 133) || (n =? 160))%nat.

Fixpoint lstrip (s : string) : string :=
  match s with
  | String c s' => if isspace c then lstrip s' else s
  | EmptyString => ""
  end.

Fixpoint rstrip (s : string) : string :=
  match s with
  | EmptyString => ""
  | String c s' =>
      match rstrip s' with
      | EmptyString => if isspace c then "" else String c ""
      | t => String c t
      end
  end.

(** [s.strip()] *)
Definition strip (s : string) : string := rstrip (lstrip s).

(** [s.replace(old, new)] for a one-character [old]. *)
Fixpoint replace (old : ascii) (new : string) (s : string) : string :=
  match s with
  | EmptyString => ""
  | String c s' =>
      if Ascii.eqb c old then new +:+ replace old new s'
      else String c (replace old new s')
  end.

(** [needle in hay] *)
Fixpoint is_infix (needle hay : string) : bool :=
  match strip_prefix needle hay with
  | Some _ => true
  | None =>
      match hay with
      | String _ hay' => is_infix needle hay'
      | EmptyString => false
      end
  end.

(** Truth value of a string in a condition: empty is false. *)
Definition truthy (s : string) : bool :=
  match s with EmptyString => false | String _ _ => true end.

(** [if x: ... else: ...] on a value that is [None] or a string. *)
Definition if_set {A : Type} (x : option string) (yes : string → A) (no : A) : A :=
  match x with
  | Some v => if truthy v then yes v else no
  | None => no
  end.

End Str.

(** ** Regular expressions as Python's [re] runs them *)

Module Re.

Inductive regex : Type :=
| Chr (p : ascii → bool)            (* a character class *)
| Lit (l : string)                  (* a literal run of characters *)
| Seq (r1 r2 : regex)
| Alt (r1 r2 : regex)               (* r1|r2, r1 tried first *)
| Opt (r : regex)                   (* r?, greedy *)
| Rep (r : regex) (lo hi : nat)     (* r{lo,hi}, greedy *)
| Plus (r : regex)                  (* r+, greedy *)
| Grp (n : nat) (r : regex).        (* capturing group number n *)

(** The outcome of one way of matching: the text consumed, the text left,
    and the groups captured (a later capture of a group comes first). *)
Definition mres : Type := string * string * list (nat * string).

Definition consumed (m : mres) : string := m.1.1.
Definition remaining (m : mres) : string := m.1.2.
Definition captures (m : mres) : list (nat * string) := m.2.

Definition then_match (x : mres) (k : string → list mres) : list mres :=
  map (fun y => (consumed x +:+ consumed y, remaining y, captures y ++ captures x))
      (k (remaining x)).

(** [rep m lo hi s]: between [lo] and [hi] rounds of [m], longest first. *)
Fixpoint rep (m : string → list mres) (lo hi : nat) (s : string) : list mres :=
  match hi with
  | O => []
  | S hi' => flat_map (fun x => then_match x (rep m (Nat.pred lo) hi')) (m s)
  end ++
  match lo with
  | O => [("", s, [])]
  | S _ => []
  end.

Fixpoint rmatch (r : regex) (s : string) : list mres :=
  match r with
  | Chr p =>
      match s with
      | String c s' => if p c then [(String c "", s', [])] else []
      | EmptyString => []
      end
  | Lit l =>
      match Str.strip_prefix l s with
      | Some s' => [(l, s', [])]
      | None => []
      end
  | Seq r1 r2 => flat_map (fun x => then_match x (rmatch r2)) (rmatch r1 s)
  | Alt r1 r2 => rmatch r1 s ++ rmatch r2 s
  | Opt r1 => rmatch r1 s ++ [("", s, [])]
  | Rep r1 lo hi => rep (rmatch r1) lo hi s
  | Plus r1 => rep (rmatch r1) 1 (S (String.length s)) s
  | Grp n r1 => map (fun x => (consumed x, remaining x, (n, consumed x) :: captures x))
                    (rmatch r1 s)
  end.

(** [pattern.match(s)]: the first match anchored at the start of [s]. *)
Definition re_match (r : regex) (s : string) : option mres := head (rmatch r s).

(** [re.search(pattern, s)]: the first match at the leftmost position
    that has one. *)
Fixpoint re_search (r : regex) (s : string) : option mres :=
  match rmatch r s with
  | x :: _ => Some x
  | [] =>
      match s with
      | EmptyString => None
      | String _ s' => re_search r s'
      end
  end.

(** [m.group(n)] *)
Fixpoint group (n : nat) (g : list (nat * string)) : option string :=
  match g with
  | [] => None
  | (k, v) :: g' => if Nat.eqb k n then Some v else group n g'
  end.

(** The language of a pattern, independent of the search order. *)
Fixpoint lang (r : regex) (m : string) : Prop :=
  match r with
  | Chr p => ∃ c, m = String c "" ∧ p c = true
  | Lit l => m = l
  | Seq r1 r2 => ∃ m1 m2, m = m1 +:+ m2 ∧ lang r1 m1 ∧ lang r2 m2
  | Alt r1 r2 => lang r1 m ∨ lang r2 m
  | Opt r1 => lang r1 m ∨ m = ""
  | Rep r1 lo hi =>
      ∃ ms, (lo ≤ length ms ≤ hi)%nat ∧ Forall (lang r1) ms ∧ m = Str.concat ms
  | Plus r1 =>
      ∃ ms, (1 ≤ length ms)%nat ∧ Forall (lang r1) ms ∧ m = Str.concat ms
  | Grp _ r1 => lang r1 m
  end.

(** A pattern is [productive] when every body of a [+] consumes at least
    one character per round; the patterns of this program are. *)
Fixpoint nullable (r : regex) : bool :=
  match r with
  | Chr _ => false
  | Lit l => match l with EmptyString => true | _ => false end
  | Seq r1 r2 => nullable r1 && nullable r2
  | Alt r1 r2 => nullable r1 || nullable r2
  | Opt _ => true
  | Rep r1 lo _ => match lo with O => true | S _ => nullable r1 end
  | Plus r1 => nullable r1
  | Grp _ r1 => nullable r1
  end.

Fixpoint productive (r : regex) : bool :=
  match r with
  | Chr _ | Lit _ => true
  | Seq r1 r2 | Alt r1 r2 => productive r1 && productive r2
  | Opt r1 | Rep r1 _ _ | Grp _ r1 => productive r1
  | Plus r1 => productive r1 && negb (nullable r1)
  end.

End Re.

(** ** Floating point: binary64 as Python's [float] uses it *)

Module Float.

(** A finite double is [mant * 2^expo].  [round] returns the normal form:
    zero is [(0, 0)], a normal number has [2^52 <= |mant| < 2^53], a
    subnormal one has [expo = -1074]. *)
Record binary64 : Type := B64 { mant : Z; expo : Z }.

(** The exact value of a double as a fraction [num / den], [den > 0]. *)
Definition num (x : binary64) : Z :=
  if 0 <=? expo x then mant x * 2 ^ expo x else mant x.
Definition den (x : binary64) : Z :=
  if 0 <=? expo x then 1 else 2 ^ (- expo x).

(** Nearest integer to [n / d], ties to the even one ([d > 0]). *)
Definition round_half_even (n d : Z) : Z :=
  let q := n / d in
  let r := n mod d in
  if 2 * r <? d then q
  else if d <? 2 * r then q + 1
  else if Z.even q then q else q + 1.

(** [n / (d * 2^e)] as a fraction of integers. *)
Definition scaled (n d e : Z) : Z * Z :=
  if 0 <=? e then (n, d * 2 ^ e) else (n * 2 ^ (- e), d).

(** Round-to-nearest-even of the positive rational [n / d] to binary64;
    [None] when the result is too large for a double. *)
Definition round_pos (n d : Z) : option binary64 :=
  let e0 := Z.log2 n - Z.log2 d - 53 in
  let s0 := scaled n d e0 in
  let e1 := if s0.1 / s0.2 <? 2 ^ 53 then e0 else e0 + 1 in
  let e := Z.max e1 (-1074) in
  let s := scaled n d e in
  let m := round_half_even s.1 s.2 in
  let x := if m =? 2 ^ 53 then B64 (2 ^ 52) (e + 1) else B64 m e in
  if 971 <? expo x then None
  else if mant x =? 0 then Some (B64 0 0)
  else Some x.

(** Round-to-nearest-even of [n / d] for [d > 0] and any [n]. *)
Definition round (n d : Z) : option binary64 :=
  match n with
  | 0 => Some (B64 0 0)
  | Zpos _ => round_pos n d
  | Zneg _ =>
      match round_pos (- n) d with
      | Some x => Some (B64 (- mant x) (expo x))
      | None => None
      end
  end.

(** [x >= 0] *)
Definition nonneg (x : binary64) : bool := 0 <=? mant x.

(** The digits of [format(x, '.1f')]: the exact value of [x] rounded to
    tenths, ties to even, as whole part, point, one digit. *)
Definition tenths (x : binary64) : Z :=
  round_half_even (10 * Z.abs (num x)) (den x).

Definition show_tenths (neg : bool) (t : Z) : string :=
  (if neg then "-" else "") +:+ pretty (t / 10) +:+ "." +:+ pretty (t mod 10).

Definition format_1f (x : binary64) : string :=
  show_tenths (mant x <? 0) (tenths x).

End Float.

(** ** Python values and exceptions *)

(** A number as the program passes it around: the [int] literals [-1],
    [0], [100] or a [float]. *)
Inductive pynum : Type :=
| PyInt (z : Z)
| PyFloat (x : Float.binary64).

(** [n >= 0] *)
Definition ge0 (n : pynum) : bool :=
  match n with
  | PyInt z => 0 <=? z
  | PyFloat x => Float.nonneg x
  end.

(** The values stored in the option dictionary handed to [YoutubeDL]. *)
Inductive pyval : Type :=
| VStr (s : string)
| VHook                                   (* the bound method [self._progress_hook] *)
| VList (l : list pyval)
| VDict (d : list (string * pyval)).

(** The outcome of a call: a value, or an exception with its message. *)
Inductive result (A : Type) : Type :=
| Ok (a : A)
| Raise (msg : string).
Arguments Ok {A} a.
Arguments Raise {A} msg.

Definition is_digit (c : ascii) : bool :=
  (48 <=? nat_of_ascii c)%nat && (nat_of_ascii c <=? 57)%nat.

Definition digit_val (c : ascii) : Z := Z.of_nat (nat_of_ascii c) - 48.

(** The number a run of decimal digits denotes, continuing from [acc];
    [None] when a character is not a digit. *)
Fixpoint digits_val (acc : Z) (s : string) : option Z :=
  match s with
  | EmptyString => Some acc
  | String c s' =>
      if is_digit c then digits_val (10 * acc + digit_val c) s' else None
  end.

(** The text before and after the first ["."] of [s]. *)
Fixpoint split_point (s : string) : string * option string :=
  match s with
  | EmptyString => ("", None)
  | String c s' =>
      if Ascii.eqb c "." then ("", Some s')
      else let (a, b) := split_point s' in (String c a, b)
  end.

(** [float(s)] for an unsigned decimal numeral [digits] or
    [digits.digits], the only arguments the program passes (group 1 of the
    percent patterns): the double nearest to the decimal.  Other texts give
    [None], Python's [ValueError]. *)
Definition float_of_str (s : string) : option Float.binary64 :=
  let (ip, fp) := split_point s in
  let fp := match fp with Some f => f | None => "" end in
  match ip +:+ fp with
  | EmptyString => None
  | ds =>
      match digits_val 0 ds with
      | Some n => Float.round n (10 ^ Z.of_nat (String.length fp))
      | None => None
      end
  end.

(** [a / b] on [int]s: the correctly rounded quotient. *)
Definition true_divide (a b : Z) : result Float.binary64 :=
  if b =? 0 then Raise "division by zero"
  else
    match Float.round (a * Z.sgn b) (Z.abs b) with
    | Some x => Ok x
    | None => Raise "integer division result too large for a float"
    end.

(** ** The URL validator *)

Declare Scope regex_scope.
Delimit Scope regex_scope with re.
Bind Scope regex_scope with Re.regex.
Infix "⋅" := Re.Seq (at level 41, right associativity) : regex_scope.
Infix "∣" := Re.Alt (at level 42, right associativity) : regex_scope.

(** [.] : any character but a newline *)
Definition dot (c : ascii) : bool := negb (Ascii.eqb c "010").

(** [[^&=%\?]] *)
Definition id_char (c : ascii) : bool := negb (Str.mem c "&=%?").

(** [(https?://)?(www\.)?(youtube|youtu|youtube-nocookie)\.(com|be)/]
    [(watch\?v=|embed/|v/|.+\?v=)?([^&=%\?]{11})] *)
Definition youtube_regex : Re.regex :=
  (Re.Opt (Re.Grp 1 (Re.Lit "http" ⋅ Re.Opt (Re.Lit "s") ⋅ Re.Lit "://"))
   ⋅ Re.Opt (Re.Grp 2 (Re.Lit "www."))
   ⋅ Re.Grp 3 (Re.Lit "youtube" ∣ Re.Lit "youtu" ∣ Re.Lit "youtube-nocookie")
   ⋅ Re.Lit "."
   ⋅ Re.Grp 4 (Re.Lit "com" ∣ Re.Lit "be")
   ⋅ Re.Lit "/"
   ⋅ Re.Opt (Re.Grp 5 (Re.Lit "watch?v=" ∣ Re.Lit "embed/" ∣ Re.Lit "v/"
                        ∣ Re.Plus (Re.Chr dot) ⋅ Re.Lit "?v="))
   ⋅ Re.Grp 6 (Re.Rep (Re.Chr id_char) 11 11))%re.

(** [youtube_regex.match(url) is not None] *)
Definition is_valid_youtube_url (url : string) : bool :=
  match Re.re_match youtube_regex url with
  | Some _ => true
  | None => false
  end.

(** ** The progress-line parser *)

(** [(\d{1,3}\.\d)%] *)
Definition percent_decimal_re : Re.regex :=
  (Re.Grp 1 (Re.Rep (Re.Chr is_digit) 1 3 ⋅ Re.Lit "." ⋅ Re.Chr is_digit)
   ⋅ Re.Lit "%")%re.

(** [(\d{1,3})%] *)
Definition percent_integer_re : Re.regex :=
  (Re.Grp 1 (Re.Rep (Re.Chr is_digit) 1 3) ⋅ Re.Lit "%")%re.

(** [m = re.search(decimal, line)]
    [if not m: m = re.search(integer, line)] *)
Definition search_percent (line : string) : option Re.mres :=
  match Re.re_search percent_decimal_re line with
  | Some m => Some m
  | None => Re.re_search percent_integer_re line
  end.

(** [float(m.group(1))]; [None] stands for the exception the [try]
    around it catches. *)
Definition group1_float (m : Re.mres) : option Float.binary64 :=
  match Re.group 1 (Re.captures m) with
  | Some g => float_of_str g
  | None => None
  end.

(** The number the runner reports for one (already stripped) line:
    the parsed percentage, or [-1] for unknown. *)
Definition percent_of_line (line : string) : pynum :=
  match search_percent line with
  | Some m =>
      match group1_float m with
      | Some x => PyFloat x
      | None => PyInt (-1)
      end
  | None => PyInt (-1)
  end.

(** ** The format selector *)

(** [_get_format_string], on the values of [quality_var] and [format_var]. *)
Definition _get_format_string (quality format_ext : string) : string :=
  if String.eqb quality "best" then
    "best[ext=" +:+ format_ext +:+ "]/best"
  else if String.eqb quality "worst" then
    "worst[ext=" +:+ format_ext +:+ "]/worst"
  else
    let height := Str.replace "p" "" quality in
    "best[height<=" +:+ height +:+ "][ext=" +:+ format_ext
      +:+ "]/best[height<=" +:+ height +:+ "]/best".

(** [self.format_var.get() in ['mp3', 'm4a']] *)
Definition is_audio_format (format_ext : string) : bool :=
  String.eqb format_ext "mp3" || String.eqb format_ext "m4a".

(** ** The view-count line of the video summary *)

(** The [view_str] computed in [_get_video_info_thread] from
    [view_count = info.get('view_count', 0)]. *)
Definition view_str (view_count : Z) : result string :=
  if negb (view_count =? 0) then
    if 1000000 <=? view_count then
      match true_divide view_count 1000000 with
      | Ok x => Ok (Float.format_1f x +:+ "M views")
      | Raise e => Raise e
      end
    else if 1000 <=? view_count then
      match true_divide view_count 1000 with
      | Ok x => Ok (Float.format_1f x +:+ "K views")
      | Raise e => Raise e
      end
    else Ok (pretty view_count +:+ " views")
  else Ok "Unknown views".

(** ** The application object and the foreground callbacks *)

(** A callback handed to [self.root.after(0, ...)]. *)
Inductive callback : Type :=
| UpdateProgress (percent : pynum) (status : string)
| DownloadComplete (success : bool) (message : string).

(** A [messagebox] call. *)
Inductive dialog : Type :=
| ShowWarning (title message : string)
| ShowError (title message : string)
| ShowInfo (title message : string).

(** The [YouTubeDownloader] object: its variables, the widgets it
    reconfigures, the message boxes it has shown and the worker threads it
    has started (each with its [url] argument), oldest first. *)
Record YouTubeDownloader : Type := App {
  url_var : string;
  quality_var : string;
  format_var : string;
  download_path : string;
  is_downloading : bool;
  progress_var : pynum;
  status_label : string;
  download_button : string * string;      (* state, text *)
  dialogs : list dialog;
  threads : list string;
}.

Definition set_is_downloading (b : bool) (a : YouTubeDownloader) : YouTubeDownloader :=
  App (url_var a) (quality_var a) (format_var a) (download_path a) b
      (progress_var a) (status_label a) (download_button a) (dialogs a) (threads a).
Definition set_progress_var (p : pynum) (a : YouTubeDownloader) : YouTubeDownloader :=
  App (url_var a) (quality_var a) (format_var a) (download_path a)
      (is_downloading a) p (status_label a) (download_button a) (dialogs a) (threads a).
Definition set_status_label (s : string) (a : YouTubeDownloader) : YouTubeDownloader :=
  App (url_var a) (quality_var a) (format_var a) (download_path a)
      (is_downloading a) (progress_var a) s (download_button a) (dialogs a) (threads a).
Definition set_download_button (b : string * string) (a : YouTubeDownloader) : YouTubeDownloader :=
  App (url_var a) (quality_var a) (format_var a) (download_path a)
      (is_downloading a) (progress_var a) (status_label a) b (dialogs a) (threads a).
Definition messagebox (d : dialog) (a : YouTubeDownloader) : YouTubeDownloader :=
  App (url_var a) (quality_var a) (format_var a) (download_path a)
      (is_downloading a) (progress_var a) (status_label a) (download_button a)
      (dialogs a ++ [d]) (threads a).
Definition start_thread (url : string) (a : YouTubeDownloader) : YouTubeDownloader :=
  App (url_var a) (quality_var a) (format_var a) (download_path a)
      (is_downloading a) (progress_var a) (status_label a) (download_button a)
      (dialogs a) (threads a ++ [url]).

(** [_update_progress] *)
Definition _update_progress (percent : pynum) (status : string) (a : YouTubeDownloader) : YouTubeDownloader :=
  let a := if ge0 percent then set_progress_var percent a else a in
  set_status_label status a.

(** [_download_complete] *)
Definition _download_complete (success : bool) (message : string) (a : YouTubeDownloader) : YouTubeDownloader :=
  let a := set_is_downloading false a in
  let a := set_download_button ("normal", "Download Video") a in
  let a :=
    if success then set_progress_var (PyInt 100) (messagebox (ShowInfo "Success" message) a)
    else set_progress_var (PyInt 0) (messagebox (ShowError "Error" message) a) in
  set_status_label "Ready to download" a.

Definition run_callback (a : YouTubeDownloader) (cb : callback) : YouTubeDownloader :=
  match cb with
  | UpdateProgress p s => _update_progress p s a
  | DownloadComplete ok msg => _download_complete ok msg a
  end.

(** The foreground loop running the callbacks posted with [after], in the
    order they were posted. *)
Definition mainloop (queue : list callback) (a : YouTubeDownloader) : YouTubeDownloader :=
  fold_left run_callback queue a.

(** ** The world outside the program *)

(** One run of the external tool: the lines the loop over [p.stdout] read
    ([stdout] and [stderr] merged, decoded as text), the exception that
    ended the reading, if any (a [UnicodeDecodeError] for output that is
    not valid text), and the exit code. *)
Record process : Type := Run {
  stdout : list string;
  read_error : option string;
  returncode : Z;
}.

(** A run whose output was read to its end. *)
Definition Process (lines : list string) (code : Z) : process :=
  Run lines None code.

(** One run of [YoutubeDL(opts).download(urls)]: the progress the hook
    [_progress_hook] posted with [_update_progress] while it ran, and the
    exception that ended it, if any. *)
Record library_run : Type := LibraryRun {
  hook_posts : list (pynum * string);
  lib_error : option string;
}.

Record system : Type := System {
  bundle_dir : string;                    (* sys._MEIPASS, or the script's directory *)
  path_join : string → string → string;   (* os.path.join *)
  dirname : string → string;              (* os.path.dirname *)
  path_exists : string → bool;            (* os.path.exists *)
  isfile : string → bool;                 (* os.path.isfile *)
  isdir : string → bool;                  (* os.path.isdir *)
  access_x : string → bool;               (* os.access(p, os.X_OK) *)
  walk : string → list string;            (* the roots os.walk yields, in order *)
  which : string → option string;         (* shutil.which *)
  popen : list string → result process;   (* subprocess.Popen(cmd), run to its end *)
  yt_dlp : option (gmap string pyval → list string → library_run);
                                          (* import yt_dlp *)
}.

(** [a or b] on values that are [None] or a string. *)
Definition or_else (a b : option string) : option string :=
  Str.if_set a Some b.

(** [_find_yt_dlp_exe] *)
Definition _find_yt_dlp_exe (os : system) : option string :=
  let base := bundle_dir os in
  let candidates := [path_join os base "yt-dlp.exe"; path_join os base "yt-dlp"] in
  match List.find (λ c, isfile os c && access_x os c) candidates with
  | Some c => Some c
  | None => or_else (which os "yt-dlp") (which os "yt-dlp.exe")
  end.

(** [_locate_ffmpeg] *)
Definition _locate_ffmpeg (os : system) : option string :=
  let names := ["ffmpeg.exe"; "ffmpeg"] in
  let has_ffmpeg dir :=
    existsb (λ name, let potential := path_join os dir name in
                     isfile os potential && access_x os potential) names in
  if has_ffmpeg (bundle_dir os) then Some (bundle_dir os)
  else
    let ffmpeg_subdir := path_join os (bundle_dir os) "ffmpeg" in
    match (if isdir os ffmpeg_subdir
           then List.find has_ffmpeg (walk os ffmpeg_subdir) else None) with
    | Some root => Some root
    | None => Str.if_set (which os "ffmpeg") (λ w, Some (dirname os w)) None
    end.

(** Something a worker asked of the world. *)
Inductive invocation : Type :=
| Popen (cmd : list string)
| YoutubeDL (opts : gmap string pyval) (urls : list string).

(** What a worker thread leaves behind: the callbacks it posted to the
    foreground and the tools it invoked, oldest first. *)
Record trace : Type := Trace {
  posted : list callback;
  invoked : list invocation;
}.

(** ** Worker code: state and exceptions *)

Definition M (A : Type) : Type := trace → result A * trace.

#[global] Instance M_ret : MRet M := λ A a t, (Ok a, t).
#[global] Instance M_bind : MBind M := λ A B f c t,
  match c t with
  | (Ok a, t') => f a t'
  | (Raise e, t') => (Raise e, t')
  end.

Definition raise {A} (msg : string) : M A := λ t, (Raise msg, t).

(** [try: body except Exception as e: handler(e)] *)
Definition try_except {A} (body : M A) (handler : string → M A) : M A := λ t,
  match body t with
  | (Ok a, t') => (Ok a, t')
  | (Raise e, t') => handler e t'
  end.

(** [self.root.after(0, cb)] *)
Definition after (cb : callback) : M () := λ t,
  (Ok (), Trace (posted t ++ [cb]) (invoked t)).

Definition invoke (i : invocation) : M () := λ t,
  (Ok (), Trace (posted t) (invoked t ++ [i])).

Definition lift {A} (r : result A) : M A := λ t, (r, t).

Definition for_each {A} (f : A → M ()) : list A → M () :=
  fix go (l : list A) : M () :=
    match l with
    | [] => mret ()
    | x :: l' => f x ;; go l'
    end.

(** ** The process runner *)

Definition progress_callback_t : Type := pynum → string → M ().

(** [if progress_callback: progress_callback(percent, line)] *)
Definition report (progress_callback : option progress_callback_t)
    (percent : pynum) (line : string) : M () :=
  match progress_callback with
  | Some cb => cb percent line
  | None => mret ()
  end.

(** The body of the loop over [p.stdout]. *)
Definition on_line (progress_callback : option progress_callback_t)
    (raw : string) : M () :=
  let line := Str.strip raw in
  match search_percent line with
  | Some m =>
      try_except
        (percent ← match group1_float m with
                   | Some x => mret x
                   | None => raise "could not convert string to float"
                   end;
         report progress_callback (PyFloat percent) line)
        (λ _, report progress_callback (PyInt (-1)) line)
  | None => report progress_callback (PyInt (-1)) line
  end.

(** [if ffmpeg_location: cmd += ['--ffmpeg-location', ffmpeg_location]] *)
Definition ffmpeg_args (ffmpeg_location : option string) : list string :=
  Str.if_set ffmpeg_location (λ d, ["--ffmpeg-location"; d]) [].

(** The command line [_run_yt_dlp_download] builds. *)
Definition build_cmd (exe_path url outtmpl format_string : string)
    (ffmpeg_location : option string) (extra_args : option (list string))
  : list string :=
  [exe_path]
  ++ match extra_args with Some a => a | None => [] end
  ++ ["-f"; format_string; "-o"; outtmpl]
  ++ ffmpeg_args ffmpeg_location
  ++ ["--newline"]
  ++ [url]
  ++ ffmpeg_args ffmpeg_location.

Section Program.

Variable os : system.

(** [_run_yt_dlp_download] *)
Definition _run_yt_dlp_download (exe_path url outtmpl format_string : string)
    (ffmpeg_location : option string)
    (progress_callback : option progress_callback_t)
    (extra_args : option (list string)) : M () :=
  let cmd := build_cmd exe_path url outtmpl format_string ffmpeg_location extra_args in
  invoke (Popen cmd) ;;
  p ← lift (popen os cmd);
  for_each (on_line progress_callback) (stdout p) ;;
  match read_error p with
  | Some e => raise e
  | None => mret ()
  end ;;
  if negb (returncode p =? 0) then
    raise ("yt-dlp exited with " +:+ pretty (returncode p))
  else mret ().

(** ** The download worker *)

(** The [progress_cb] closures of [_download_thread]. *)
Definition progress_cb (pct : pynum) (status : string) : M () :=
  try_except
    (if ge0 pct then after (UpdateProgress pct status)
     else after (UpdateProgress (PyInt (-1)) status))
    (λ _, mret ()).

(** The option dictionary of the Python-API path. *)
Definition build_ydl_opts (format_string outtmpl format_ext : string)
    (ffmpeg_dir : option string) : gmap string pyval :=
  let ydl_opts : gmap string pyval :=
    <["progress_hooks" := VList [VHook]]>
      (<["outtmpl" := VStr outtmpl]>
         (<["format" := VStr format_string]> ∅)) in
  let ydl_opts :=
    Str.if_set ffmpeg_dir (λ d, <["ffmpeg_location" := VStr d]> ydl_opts) ydl_opts in
  if is_audio_format format_ext then
    <["postprocessors" :=
        VList [VDict [("key", VStr "FFmpegExtractAudio");
                      ("preferredcodec", VStr format_ext);
                      ("preferredquality", VStr "192")]]]>
      (<["format" := VStr "bestaudio/best"]> ydl_opts)
  else ydl_opts.

(** [import yt_dlp; ...; with yt_dlp.YoutubeDL(ydl_opts) as ydl:]
    [ydl.download([url])] *)
Definition ydl_download (ydl_opts : gmap string pyval) (url : string) : M () :=
  match yt_dlp os with
  | None => raise "No module named 'yt_dlp'"
  | Some download =>
      invoke (YoutubeDL ydl_opts [url]) ;;
      let run := download ydl_opts [url] in
      for_each (λ ps, after (UpdateProgress ps.1 ps.2)) (hook_posts run) ;;
      match lib_error run with
      | Some e => raise e
      | None => mret ()
      end
  end.

(** [_download_thread] *)
Definition _download_thread (self : YouTubeDownloader) (url : string) : M () :=
  try_except
    (let format_string := _get_format_string (quality_var self) (format_var self) in
     let ffmpeg_dir := _locate_ffmpeg os in
     let yt_exe := _find_yt_dlp_exe os in
     let outtmpl := path_join os (download_path self) "%(title)s.%(ext)s" in
     Str.if_set yt_exe
       (λ yt_exe,
          let fmt := format_string in
          if is_audio_format (format_var self) then
            let fmt := "bestaudio/best" in
            let extra_args := ["--extract-audio"; "--audio-format"; format_var self] in
            _run_yt_dlp_download yt_exe url outtmpl fmt ffmpeg_dir
              (Some progress_cb) (Some extra_args)
          else
            _run_yt_dlp_download yt_exe url outtmpl fmt ffmpeg_dir
              (Some progress_cb) None)
       (ydl_download
          (build_ydl_opts format_string outtmpl (format_var self) ffmpeg_dir) url) ;;
     after (DownloadComplete true "Download completed successfully!"))
    (λ e, after (DownloadComplete false ("Download failed: " +:+ e))).

(** ** Starting a download *)

(** [start_download]: the guards in the order the method checks them,
    then the spawn of the worker. *)
Definition start_download (self : YouTubeDownloader) : YouTubeDownloader :=
  let url := Str.strip (url_var self) in
  if negb (Str.truthy url) then
    messagebox (ShowWarning "Warning" "Please enter a YouTube URL") self
  else if negb (is_valid_youtube_url url) then
    messagebox (ShowError "Error" "Please enter a valid YouTube URL") self
  else if negb (path_exists os (download_path self)) then
    messagebox (ShowError "Error" "Download folder does not exist") self
  else if is_downloading self then
    messagebox (ShowWarning "Warning" "Download already in progress") self
  else
    let self := set_download_button ("disabled", "Downloading...") self in
    let self := set_is_downloading true self in
    let self := set_progress_var (PyInt 0) self in
    start_thread url self.

(** The worker a [start_download] spawned, run to its end: the callbacks
    it posted and the tools it invoked. *)
Definition run_worker (self : YouTubeDownloader) (url : string) : trace :=
  (_download_thread self url (Trace [] [])).2.

End Program.

(** ** Vocabulary of the specification *)

(** An 11-character video identifier: eleven characters of the class the
    validator reads an identifier from. *)
Definition id_token (tok : string) : bool :=
  (String.length tok =? 11)%nat && Str.all id_char tok.

(** The positional forms in which the identifier may follow the host:
    directly (short link), as the [v] query parameter of [watch] or of any
    other path, after [embed/], after [v/]. *)
Definition positional_form (form : string) : Prop :=
  form = "" ∨ form = "watch?v=" ∨ form = "embed/" ∨ form = "v/"
  ∨ ∃ x, x ≠ "" ∧ Str.all dot x = true ∧ form = x +:+ "?v=".

(** Optional scheme, optional [www.], a recognized host, a slash. *)
Definition url_head (pre : string) : Prop :=
  ∃ scheme www host tld,
    pre = scheme +:+ www +:+ host +:+ "." +:+ tld +:+ "/"
    ∧ In scheme [""; "http://"; "https://"]
    ∧ In www [""; "www."]
    ∧ In host ["youtube"; "youtu"; "youtube-nocookie"]
    ∧ In tld ["com"; "be"].

(** [s] contains a video-identifier token in a recognized position. *)
Definition has_video_id (s : string) : Prop :=
  ∃ pre form tok rest,
    s = pre +:+ form +:+ tok +:+ rest
    ∧ url_head pre ∧ positional_form form ∧ id_token tok = true.

(** [s] contains, at any position at all, eleven consecutive characters of
    the identifier class. *)
Fixpoint contains_id_run (s : string) : bool :=
  id_token (Str.take 11 s)
  || match s with
     | String _ s' => contains_id_run s'
     | EmptyString => false
     end.

(** [p] is the unknown sentinel [-1], or a float with [0 <= p < hi]
    ([strict]) or [0 <= p <= hi]. *)
Definition percent_within (strict : bool) (hi : Z) (p : pynum) : bool :=
  match p with
  | PyInt z => z =? -1
  | PyFloat x =>
      (0 <=? Float.mant x)
      && (if strict then Float.num x <? hi * Float.den x
          else Float.num x <=? hi * Float.den x)
  end.

(** The double nearest to [n / d] exists and lies in [0, 1000). *)
Definition round_ok (d n : Z) : bool :=
  match Float.round n d with
  | Some x => percent_within true 1000 (PyFloat x)
  | None => false
  end.

(** The progress event one output line of the tool gives rise to. *)
Definition line_event (raw : string) : callback :=
  UpdateProgress (percent_of_line (Str.strip raw)) (Str.strip raw).

(** Every progress event of a queue carries a percent in the range. *)
Definition progress_within (strict : bool) (hi : Z) (queue : list callback) : bool :=
  forallb (λ cb, match cb with
                 | UpdateProgress p _ => percent_within strict hi p
                 | DownloadComplete _ _ => true
                 end) queue.

Definition is_progress (cb : callback) : bool :=
  match cb with UpdateProgress _ _ => true | DownloadComplete _ _ => false end.

(** A callback that never raises. *)
Definition total (cb : progress_callback_t) : Prop :=
  ∀ p line t, (cb p line t).1 = Ok ().

(** A callback that records what it is called with and never raises. *)
Definition record_progress : progress_callback_t :=
  λ p line, after (UpdateProgress p line).





(** A callback that records the call and then raises. *)
Definition failing_callback : progress_callback_t :=
  λ p line, after (UpdateProgress p line) ;; raise "callback failed".

(** [f] holds at the [n] integers from [z] on. *)
Fixpoint forall_from (z : Z) (n : nat) (f : Z → bool) : bool :=
  match n with
  | O => true
  | S k => f z && forall_from (z + 1) k f
  end.

(** Agreement with the Standard Library's model of IEEE 754: the doubles
    of [SpecFloat], and its division [SFdiv] of the doubles of two
    integers. *)
Definition to_spec (x : option Float.binary64) : spec_float :=
  match x with
  | Some (Float.B64 0 _) => S754_zero false
  | Some (Float.B64 (Zpos m) e) => S754_finite false m e
  | Some (Float.B64 (Zneg m) e) => S754_finite true m e
  | None => S754_infinity false
  end.

Definition spec_eqb (a b : spec_float) : bool :=
  match a, b with
  | S754_zero s, S754_zero t => Bool.eqb s t
  | S754_finite s m e, S754_finite t m' e' =>
      Bool.eqb s t && (m =? m')%positive && (e =? e')
  | S754_infinity s, S754_infinity t => Bool.eqb s t
  | _, _ => false
  end.

Definition ieee_div (n d : Z) : spec_float :=
  SFdiv 53 1024 (binary_normalize 53 1024 n 0 false)
                (binary_normalize 53 1024 d 0 false).

Definition agrees_with_ieee (d n : Z) : bool :=
  spec_eqb (ieee_div n d) (to_spec (Float.round n d)).

(** The executable the worker uses, if any: the result of
    [_find_yt_dlp_exe()] when it is set. *)
Definition exe_found (os : system) : option string :=
  Str.if_set (_find_yt_dlp_exe os) Some None.

(** The output template the worker hands to the tool. *)
Definition worker_outtmpl (os : system) (self : YouTubeDownloader) : string :=
  path_join os (download_path self) "%(title)s.%(ext)s".

(** The command line the worker runs with the executable [exe]. *)
Definition worker_cmd (os : system) (self : YouTubeDownloader) (url exe : string) : list string :=
  if is_audio_format (format_var self) then
    build_cmd exe url (worker_outtmpl os self) "bestaudio/best" (_locate_ffmpeg os)
      (Some ["--extract-audio"; "--audio-format"; format_var self])
  else
    build_cmd exe url (worker_outtmpl os self)
      (_get_format_string (quality_var self) (format_var self)) (_locate_ffmpeg os) None.

(** The options the worker hands to the Python package. *)
Definition worker_opts (os : system) (self : YouTubeDownloader) : gmap string pyval :=
  build_ydl_opts (_get_format_string (quality_var self) (format_var self))
    (worker_outtmpl os self) (format_var self) (_locate_ffmpeg os).

(** How a started run ends for a caller whose callback does not raise:
    with the error that ended the reading of the output, or else by the
    exit code. *)
Definition run_outcome (p : process) : result () :=
  match read_error p with
  | Some e => Raise e
  | None =>
      if returncode p =? 0 then Ok ()
      else Raise ("yt-dlp exited with " +:+ pretty (returncode p))
  end.

(** The completion callback for the outcome of the worker's [try] body. *)
Definition completion (outcome : result ()) : callback :=
  match outcome with
  | Ok _ => DownloadComplete true "Download completed successfully!"
  | Raise e => DownloadComplete false ("Download failed: " +:+ e)
  end.

(** What the foreground knows of the download in flight: the flag, the
    progress shown, the status line and the workers started. *)
Definition download_state (a : YouTubeDownloader)
  : bool * pynum * string * list string :=
  (is_downloading a, progress_var a, status_label a, threads a).

(** The guards of [start_download] all pass. *)
Definition guards_pass (os : system) (self : YouTubeDownloader) : bool :=
  let url := Str.strip (url_var self) in
  Str.truthy url && is_valid_youtube_url url
  && path_exists os (download_path self) && negb (is_downloading self).

(** ** A session: the user, the foreground loop and the workers *)

(** The window together with the workers started so far; a worker is the
    callbacks it posts that the foreground has not run yet, and is
    finished when none is left. *)
Record session : Type := Session {
  window : YouTubeDownloader;
  workers : list (list callback);
}.

Inductive event : Type :=
| SetInputs (url quality format_ext path : string)   (* the user fills the form *)
| ClickDownload                                      (* the Download button *)
| Deliver (i : nat).                                 (* the next callback of worker i runs *)

Definition set_inputs (url quality format_ext path : string)
    (a : YouTubeDownloader) : YouTubeDownloader :=
  App url quality format_ext path (is_downloading a) (progress_var a)
      (status_label a) (download_button a) (dialogs a) (threads a).

(** The worker [start_download] spawns, if it spawns one: the difference
    between the thread lists before and after. *)
Definition spawned (before after : YouTubeDownloader) : list string :=
  drop (length (threads before)) (threads after).

Definition step (os : system) (s : session) (ev : event) : session :=
  match ev with
  | SetInputs url quality format_ext path =>
      Session (set_inputs url quality format_ext path (window s)) (workers s)
  | ClickDownload =>
      let w := start_download os (window s) in
      Session w (workers s ++ map (λ url, posted (run_worker os w url))
                                  (spawned (window s) w))
  | Deliver i =>
      match workers s !! i with
      | Some (cb :: rest) =>
          Session (run_callback (window s) cb) (<[i := rest]> (workers s))
      | _ => s
      end
  end.

Definition run_session (os : system) (evs : list event) (s : session) : session :=
  fold_left (step os) evs s.

(** The number of workers that are not finished. *)
Fixpoint active (ws : list (list callback)) : nat :=
  match ws with
  | [] => 0
  | [] :: ws' => active ws'
  | (_ :: _) :: ws' => S (active ws')
  end.

(** A worker's pending callbacks are progress events closed by one
    completion, or nothing. *)
Definition well_formed_worker (w : list callback) : Prop :=
  w = [] ∨ ∃ progress ok msg,
             w = progress ++ [DownloadComplete ok msg]
             ∧ forallb is_progress progress = true.

(** The flag says Running exactly when one worker is unfinished. *)
Definition session_ok (s : session) : Prop :=
  Forall well_formed_worker (workers s)
  ∧ active (workers s) = (if is_downloading (window s) then 1 else 0)%nat.

(** ** Scenarios *)

(** A machine where yt-dlp and ffmpeg are installed in [/usr/bin], the
    download folder exists and the tool behaves as [run]. *)
Definition tool_installed (run : process) : system :=
  System "/opt/app" (λ a b, a +:+ "/" +:+ b) (λ _, "/usr/bin")
         (λ _, true) (λ _, false) (λ _, false) (λ _, false) (λ _, [])
         (λ name, if String.eqb name "yt-dlp" then Some "/usr/bin/yt-dlp"
                  else if String.eqb name "ffmpeg" then Some "/usr/bin/ffmpeg"
                  else None)
         (λ _, Ok run) None.

(** A machine without the executables, where the Python package behaves
    as [run]. *)
Definition package_only (run : library_run) : system :=
  System "/opt/app" (λ a b, a +:+ "/" +:+ b) (λ _, "")
         (λ _, true) (λ _, false) (λ _, false) (λ _, false) (λ _, [])
         (λ _, None)
         (λ _, Raise "[Errno 2] No such file or directory")
         (Some (λ _ _, run)).

(** The window as it opens, with a URL typed in. *)
Definition fresh_app (url quality format_ext : string) : YouTubeDownloader :=
  App url quality format_ext "/home/u/Downloads" false (PyInt 0)
      "Ready to download" ("normal", "Download Video") [] [].

(** ** The metadata fetch *)

(** A value of the metadata dictionary as the summary reads it: [None],
    an [int] or a [str].  (Other JSON values, floats among them, are
    outside this embedding.) *)
Inductive jval : Type :=
| JNone
| JInt (z : Z)
| JStr (s : string).

(** [str(v)], as an f-string renders it *)
Definition jstr (v : jval) : string :=
  match v with
  | JNone => "None"
  | JInt z => pretty z
  | JStr s => s
  end.

(** [if v:] *)
Definition jtruthy (v : jval) : bool :=
  match v with
  | JNone => false
  | JInt z => negb (z =? 0)
  | JStr s => Str.truthy s
  end.

(** What [json.loads] or [extract_info] hands back: [None], a dictionary,
    or a value of another type (named by its Python type). *)
Inductive pyinfo : Type :=
| InfoNone
| InfoDict (d : gmap string jval)
| InfoOther (type_name : string).

(** The result of [subprocess.run(..., capture_output=True, text=True)]. *)
Record completed_process : Type := Completed {
  cp_returncode : Z;
  cp_stdout : string;
  cp_stderr : string;
}.

Record metadata_tools : Type := MetadataTools {
  subprocess_run : list string → result completed_process;
                         (* subprocess.run(cmd, ..., timeout=30) *)
  json_loads : string → result pyinfo;               (* json.loads *)
  extract_info : option (string → result pyinfo);
                         (* import yt_dlp; ydl.extract_info(url, download=False) *)
}.

Definition result_bind {A B : Type} (r : result A) (f : A → result B) : result B :=
  match r with
  | Ok a => f a
  | Raise e => Raise e
  end.

(** [_run_yt_dlp_info] *)
Definition _run_yt_dlp_info (tools : metadata_tools) (exe_path url : string)
  : result pyinfo :=
  result_bind (subprocess_run tools [exe_path; "-j"; url]) (λ proc,
    if negb (cp_returncode proc =? 0) then
      let stderr := Str.strip (cp_stderr proc) in
      Raise (if Str.truthy stderr then stderr else "yt-dlp failed")
    else json_loads tools (cp_stdout proc)).

(** [info.get(key, default)] *)
Definition dict_get (d : gmap string jval) (key : string) (default : jval) : jval :=
  match d !! key with
  | Some v => v
  | None => default
  end.

(** [f"{n:02d}"] *)
Definition pad2 (n : Z) : string :=
  let s := pretty n in
  if (String.length s <? 2)%nat then "0" +:+ s else s.

(** The [duration_str] of [_get_video_info_thread]. *)
Definition duration_str (duration : jval) : result string :=
  if jtruthy duration then
    match duration with
    | JInt d => Ok (pad2 (d / 60) +:+ ":" +:+ pad2 (d mod 60))
    | JStr _ => Raise "unsupported operand type(s) for divmod(): 'str' and 'int'"
    | JNone => Ok "Unknown"
    end
  else Ok "Unknown".

(** The [view_str] of [_get_video_info_thread], on any value of the
    dictionary. *)
Definition view_str_of (view_count : jval) : result string :=
  if jtruthy view_count then
    match view_count with
    | JInt n => view_str n
    | JStr _ => Raise "'>=' not supported between instances of 'str' and 'int'"
    | JNone => Ok "Unknown views"
    end
  else Ok "Unknown views".

Definition newline : string := String "010" "".

(** The summary text built from [info]. *)
Definition format_info (info : pyinfo) : result string :=
  match info with
  | InfoNone => Raise "'NoneType' object has no attribute 'get'"
  | InfoOther t => Raise ("'" +:+ t +:+ "' object has no attribute 'get'")
  | InfoDict d =>
      let title := dict_get d "title" (JStr "Unknown") in
      let uploader := dict_get d "uploader" (JStr "Unknown") in
      let duration := dict_get d "duration" (JInt 0) in
      let view_count := dict_get d "view_count" (JInt 0) in
      result_bind (duration_str duration) (λ duration_str,
      result_bind (view_str_of view_count) (λ view_str,
        Ok ("Title: " +:+ jstr title +:+ newline
            +:+ "Uploader: " +:+ jstr uploader +:+ newline
            +:+ "Duration: " +:+ duration_str +:+ newline
            +:+ "Views: " +:+ view_str +:+ newline)))
  end.

(** The two ways of obtaining [info]: the executable when there is one,
    any failure of it swallowed, then the Python package when [info] is
    still [None]. *)
Definition fetch_info (os : system) (tools : metadata_tools) (url : string)
  : result pyinfo :=
  let info :=
    Str.if_set (_find_yt_dlp_exe os)
      (λ yt_exe, match _run_yt_dlp_info tools yt_exe url with
                 | Ok info => info
                 | Raise _ => InfoNone
                 end)
      InfoNone in
  match info with
  | InfoNone =>
      match extract_info tools with
      | Some extract => extract url
      | None => Raise "No module named 'yt_dlp'"
      end
  | _ => Ok info
  end.

(** What the metadata worker hands to [root.after]. *)
Inductive info_callback : Type :=
| UpdateVideoInfo (info_text : string)       (* self._update_video_info *)
| EnableInfoButton                           (* info_button.config(state="normal") *)
| ResetStatus.                               (* status_label.config(text="Ready to download") *)

(** [_get_video_info_thread]: the callbacks it posts, in order. *)
Definition _get_video_info_thread (os : system) (tools : metadata_tools)
    (url : string) : list info_callback :=
  match result_bind (fetch_info os tools url) format_info with
  | Ok info_text => [UpdateVideoInfo info_text]
  | Raise e => [UpdateVideoInfo ("Error getting video information: " +:+ e)]
  end ++ [EnableInfoButton; ResetStatus].

(** The widgets of the information panel, and the metadata workers
    started (each with its [url]). *)
Record info_view : Type := InfoView {
  info_text : string;
  info_button : string;                      (* state *)
  info_threads : list string;
}.

(** The foreground running one callback of a metadata worker. *)
Definition run_info_callback (s : YouTubeDownloader * info_view)
    (cb : info_callback) : YouTubeDownloader * info_view :=
  match cb with
  | UpdateVideoInfo text =>
      (s.1, InfoView text (info_button s.2) (info_threads s.2))
  | EnableInfoButton =>
      (s.1, InfoView (info_text s.2) "normal" (info_threads s.2))
  | ResetStatus => (set_status_label "Ready to download" s.1, s.2)
  end.

(** [get_video_info] *)
Definition get_video_info (self : YouTubeDownloader) (view : info_view)
  : YouTubeDownloader * info_view :=
  let url := Str.strip (url_var self) in
  if negb (Str.truthy url) then
    (messagebox (ShowWarning "Warning" "Please enter a YouTube URL") self, view)
  else if negb (is_valid_youtube_url url) then
    (messagebox (ShowError "Error" "Please enter a valid YouTube URL") self, view)
  else
    (set_status_label "Getting video information..." self,
     InfoView (info_text view) "disabled" (info_threads view ++ [url])).

(** ** The progress hook of the Python-package path *)

(** A value of the dictionary yt-dlp passes to a progress hook: [None],
    an [int] or a [str].  (Float byte counts are outside this embedding.) *)
Inductive hval : Type :=
| HNone
| HInt (z : Z)
| HStr (s : string).

Definition htype (v : hval) : string :=
  match v with
  | HNone => "NoneType"
  | HInt _ => "int"
  | HStr _ => "str"
  end.

(** A float that may have overflowed. *)
Inductive pyfloat : Type :=
| Finite (x : Float.binary64)
| Infinity (negative : bool).

(** [x * 100] on a float *)
Definition times_100 (x : Float.binary64) : pyfloat :=
  match Float.round (Float.num x * 100) (Float.den x) with
  | Some y => Finite y
  | None => Infinity (Float.mant x <? 0)
  end.

(** [f"{percent:.1f}"] *)
Definition pyfloat_1f (p : pyfloat) : string :=
  match p with
  | Finite x => Float.format_1f x
  | Infinity neg => if neg then "-inf" else "inf"
  end.

(** The number a hook passes on: an [int] or a float. *)
Inductive hook_num : Type :=
| HookInt (z : Z)
| HookFloat (p : pyfloat).

(** [d[key]] *)
Definition getitem (d : gmap string hval) (key : string) : result hval :=
  match d !! key with
  | Some v => Ok v
  | None => Raise ("'" +:+ key +:+ "'")
  end.

(** [(a / b) * 100] on values of the dictionary *)
Definition percent_of (a b : hval) : result pyfloat :=
  match a, b with
  | HInt x, HInt y => result_bind (true_divide x y) (λ q, Ok (times_100 q))
  | _, _ => Raise ("unsupported operand type(s) for /: '" +:+ htype a
                   +:+ "' and '" +:+ htype b +:+ "'")
  end.

(** [_progress_hook]: the [_update_progress] call it posts, if any.
    [basename] is [os.path.basename]. *)
Definition _progress_hook (basename : string → string) (d : gmap string hval)
  : result (list (hook_num * string)) :=
  result_bind (getitem d "status") (λ status,
    match status with
    | HStr "downloading" =>
        match d !! "total_bytes", d !! "total_bytes_estimate" with
        | Some _, _ =>
            result_bind (getitem d "downloaded_bytes") (λ downloaded,
            result_bind (getitem d "total_bytes") (λ total,
            result_bind (percent_of downloaded total) (λ percent,
              Ok [(HookFloat percent,
                   "Downloading... " +:+ pyfloat_1f percent +:+ "%")])))
        | None, Some _ =>
            result_bind (getitem d "downloaded_bytes") (λ downloaded,
            result_bind (getitem d "total_bytes_estimate") (λ total,
            result_bind (percent_of downloaded total) (λ percent,
              Ok [(HookFloat percent,
                   "Downloading... " +:+ pyfloat_1f percent +:+ "% (estimated)")])))
        | None, None => Ok [(HookInt (-1), "Downloading...")]
        end
    | HStr "finished" =>
        result_bind (getitem d "filename") (λ filename,
          match filename with
          | HStr f => Ok [(HookInt 100, "Download finished: " +:+ basename f)]
          | _ => Raise ("expected str, bytes or os.PathLike object, not "
                        +:+ htype filename)
          end)
    | _ => Ok []
    end).

(** ** Centring the window *)

(** The geometry [center_window] asks for: the offsets and the string. *)
Definition center_offset (screen size : Z) : Z := screen / 2 - size / 2.

Definition center_window (width height screenwidth screenheight : Z) : string :=
  let x := center_offset screenwidth width in
  let y := center_offset screenheight height in
  pretty width +:+ "x" +:+ pretty height +:+ "+" +:+ pretty x +:+ "+" +:+ pretty y.

(** ** Vocabulary of the further properties *)

(** A path the locators accept: a file that may be executed. *)
Definition usable (os : system) (p : string) : bool := isfile os p && access_x os p.

(** [dir] holds an ffmpeg executable under one of its two names. *)
Definition has_ffmpeg (os : system) (dir : string) : bool :=
  usable os (path_join os dir "ffmpeg.exe") || usable os (path_join os dir "ffmpeg").

(** A machine given by its executable files and its search path; the
    bundle has an [ffmpeg] folder with a [bin] folder inside. *)
Definition sample_fs (files : list string) (path : list (string * string)) : system :=
  System "/opt/app" (λ a b, a +:+ "/" +:+ b) (λ _, "/usr/bin")
         (λ _, true) (λ p, bool_decide (p ∈ files))
         (λ p, bool_decide (p ∈ ["/opt/app/ffmpeg"]))
         (λ p, bool_decide (p ∈ files))
         (λ _, ["/opt/app/ffmpeg"; "/opt/app/ffmpeg/bin"])
         (λ name, snd <$> List.find (λ e, String.eqb (fst e) name) path)
         (λ _, Raise "not run") None.

(** The text the metadata worker shows for an outcome. *)
Definition info_message (r : result string) : string :=
  match r with
  | Ok info_text => info_text
  | Raise e => "Error getting video information: " +:+ e
  end.

(** The Python-package path of [fetch_info], on its own. *)
Definition package_info (tools : metadata_tools) (url : string) : result pyinfo :=
  match extract_info tools with
  | Some extract => extract url
  | None => Raise "No module named 'yt_dlp'"
  end.

(** The foreground running the callbacks of a metadata worker in order. *)
Definition run_info_callbacks (s : YouTubeDownloader * info_view)
    (cbs : list info_callback) : YouTubeDownloader * info_view :=
  fold_left run_info_callback cbs s.

(** [f"{s:02d}"] has two characters. *)
Definition seconds_two_wide (s : Z) : bool :=
  (String.length (pad2 s) =? 2)%nat.

(** [0 <= x <= K] on a double. *)
Definition between_0_and (K : Z) (x : Float.binary64) : Prop :=
  0 ≤ Float.mant x ∧ 0 < Float.den x ∧ 0 ≤ Float.num x ≤ K * Float.den x.

(** * Properties *)

(** ** Strings *)

Module StrFacts.
Import Str.

Lemma app_nil_r (s : string) : s +:+ "" = s.
Proof. induction s as [|c s IH]; simpl; [reflexivity | now rewrite IH]. Qed.

Lemma app_assoc (a b c : string) : (a +:+ b) +:+ c = a +:+ (b +:+ c).
Proof. induction a as [|x a IH]; simpl; [reflexivity | now rewrite IH]. Qed.

Lemma length_app (a b : string) :
  String.length (a +:+ b) = (String.length a + String.length b)%nat.
Proof. induction a as [|x a IH]; simpl; [reflexivity | now rewrite IH]. Qed.

Lemma app_eq_nil (a b : string) : a +:+ b = "" → a = "" ∧ b = "".
Proof. destruct a; simpl; [auto | discriminate]. Qed.

Lemma strip_prefix_Some l s t : strip_prefix l s = Some t ↔ s = l +:+ t.
Proof.
  revert s; induction l as [|a l IH]; intros s; simpl.
  - split; [intros [= ->] | intros ->]; reflexivity.
  - destruct s as [|b s]; [split; discriminate|].
    destruct (Ascii.eqb_spec a b) as [->|Hne].
    + rewrite IH. split; [intros ->; reflexivity | intros [= ->]; reflexivity].
    + split; [discriminate | intros [= Hab _]; congruence].
Qed.

Lemma strip_prefix_app l t : strip_prefix l (l +:+ t) = Some t.
Proof. now apply strip_prefix_Some. Qed.

Lemma all_app p a b : all p (a +:+ b) = all p a && all p b.
Proof.
  induction a as [|x a IH]; simpl; [reflexivity|].
  now rewrite IH, andb_assoc.
Qed.

Lemma take_app a b : take (String.length a) (a +:+ b) = a.
Proof. induction a as [|x a IH]; simpl; [now destruct b | now rewrite IH]. Qed.

(** A list of one-character pieces that all satisfy [p] is a string whose
    characters all satisfy [p], of that many characters; and back. *)
Lemma concat_chars p ms :
  Forall (λ m, ∃ c, m = String c "" ∧ p c = true) ms →
  String.length (concat ms) = length ms ∧ all p (concat ms) = true.
Proof.
  induction 1 as [|m ms (c & -> & Hc) _ [IHl IHa]]; simpl; [auto|].
  now rewrite IHl, Hc, IHa.
Qed.

Lemma chars_concat p s :
  all p s = true →
  ∃ ms, Forall (λ m, ∃ c, m = String c "" ∧ p c = true) ms
        ∧ length ms = String.length s ∧ s = concat ms.
Proof.
  induction s as [|c s IH]; simpl; intros H.
  - exists []. auto.
  - apply andb_true_iff in H as [Hc Hs].
    destruct (IH Hs) as (ms & HF & Hl & Hs').
    exists (String c "" :: ms). repeat split.
    + constructor; eauto.
    + simpl. now rewrite Hl.
    + simpl. now rewrite <- Hs'.
Qed.

End StrFacts.

(** ** The matcher against the language of a pattern *)

Module ReFacts.
Import Str StrFacts Re.

Lemma in_then_match z x k :
  In z (then_match x k) ↔
  ∃ y, In y (k (remaining x))
       ∧ z = (consumed x +:+ consumed y, remaining y, (captures y ++ captures x)%list).
Proof.
  unfold then_match. rewrite in_map_iff. split; intros (y & H1 & H2); eauto.
Qed.

Section Rep.
Variable m : string → list mres.
Variable P : string → Prop.

Lemma rep_sound lo hi s x :
  (∀ s x, In x (m s) → s = consumed x +:+ remaining x ∧ P (consumed x)) →
  In x (rep m lo hi s) →
  s = consumed x +:+ remaining x
  ∧ ∃ ms, (lo ≤ length ms ≤ hi)%nat ∧ Forall P ms ∧ consumed x = concat ms.
Proof.
  intros Hm. revert lo s x.
  induction hi as [|hi IH]; intros lo s x; simpl.
  - destruct lo; [|intros []]. intros [<-|[]].
    split; [reflexivity|]. exists []. simpl. auto with lia.
  - rewrite in_app_iff. intros [Hx|Hx].
    + apply in_flat_map in Hx as (x1 & Hx1 & Hx).
      apply in_then_match in Hx as (y & Hy & ->).
      apply Hm in Hx1 as [-> HP].
      apply IH in Hy as [Hy (ms & Hl & HF & Hc)].
      unfold consumed, remaining in *; simpl in *.
      split; [rewrite app_assoc; congruence|].
      exists (x1.1.1 :: ms). simpl. repeat split; [lia | lia | auto | congruence].
    + destruct lo; [|destruct Hx].
      destruct Hx as [<-|[]]. split; [reflexivity|]. exists []. simpl. auto with lia.
Qed.

Lemma rep_complete lo hi ms rest :
  (∀ c rest, P c → ∃ g, In (c, rest, g) (m (c +:+ rest))) →
  Forall P ms → (lo ≤ length ms ≤ hi)%nat →
  ∃ g, In (concat ms, rest, g) (rep m lo hi (concat ms +:+ rest)).
Proof.
  intros Hm HF. revert lo hi.
  induction HF as [|c ms Hc HF IH]; intros lo hi Hl; simpl in Hl.
  - assert (lo = 0%nat) as -> by lia.
    exists []. destruct hi; simpl; rewrite ?in_app_iff; simpl; auto.
  - destruct hi as [|hi]; [lia|].
    destruct (IH (Nat.pred lo) hi ltac:(lia)) as (g2 & Hg2).
    destruct (Hm c (concat ms +:+ rest) Hc) as (g1 & Hg1).
    exists (g2 ++ g1)%list. simpl. rewrite in_app_iff. left.
    rewrite app_assoc. apply in_flat_map. eexists; split; [exact Hg1|].
    apply in_then_match. eexists; split; [exact Hg2|]. reflexivity.
Qed.
End Rep.

(** Whatever the matcher returns is a split of the subject into a word
    of the language and the rest. *)
Lemma rmatch_sound r s x :
  In x (rmatch r s) → s = consumed x +:+ remaining x ∧ lang r (consumed x).
Proof.
  revert s x; induction r as [p|l|r1 IH1 r2 IH2|r1 IH1 r2 IH2|r1 IH1|r1 IH1 lo hi|r1 IH1|n r1 IH1];
    intros s x; cbn [rmatch lang].
  - destruct s as [|c s]; [intros []|].
    destruct (p c) eqn:Hp; [|intros []].
    intros [<-|[]]. split; [reflexivity | eauto].
  - destruct (strip_prefix l s) as [s'|] eqn:Hs; [|intros []].
    apply strip_prefix_Some in Hs. intros [<-|[]]. auto.
  - intros Hx. apply in_flat_map in Hx as (x1 & Hx1 & Hx).
    apply in_then_match in Hx as (y & Hy & ->).
    apply IH1 in Hx1 as [-> H1]. apply IH2 in Hy as [Hy H2].
    unfold consumed, remaining in *; simpl in *.
    split; [rewrite app_assoc; congruence | eauto].
  - rewrite in_app_iff. intros [Hx|Hx]; [apply IH1 in Hx | apply IH2 in Hx]; tauto.
  - rewrite in_app_iff. intros [Hx|[<-|[]]]; [apply IH1 in Hx; tauto | auto].
  - intros Hx. eapply rep_sound in Hx; [exact Hx | exact IH1].
  - intros Hx. eapply rep_sound in Hx as [Hs (ms & Hl & HF & Hc)]; [|exact IH1].
    split; [assumption|]. exists ms. auto with lia.
  - intros Hx. apply in_map_iff in Hx as (y & <- & Hy). apply IH1 in Hy. exact Hy.
Qed.

Lemma concat_nonempty_length (P : string → Prop) ms :
  Forall P ms → (∀ c, P c → c ≠ "") → (length ms ≤ String.length (concat ms))%nat.
Proof.
  intros HF HP. induction HF as [|c ms Hc _ IH]; simpl; [lia|].
  rewrite length_app. apply HP in Hc. destruct c; [congruence | simpl; lia].
Qed.

Lemma nullable_false r c : nullable r = false → lang r c → c ≠ "".
Proof.
  revert c; induction r as [p|l|r1 IH1 r2 IH2|r1 IH1 r2 IH2|r1 IH1|r1 IH1 lo hi|r1 IH1|n r1 IH1];
    intros c; simpl.
  - intros _ (x & -> & _). discriminate.
  - intros Hl ->. destruct l; discriminate.
  - intros Hn (m1 & m2 & -> & H1 & H2) He. apply app_eq_nil in He as [-> ->].
    apply andb_false_iff in Hn as [Hn|Hn]; [eapply IH1 | eapply IH2]; eauto.
  - intros Hn. apply orb_false_iff in Hn as [Hn1 Hn2]. intros [H|H]; eauto.
  - discriminate.
  - destruct lo as [|lo]; [discriminate|].
    intros Hn (ms & Hl & HF & ->) He.
    pose proof (concat_nonempty_length _ ms HF (λ c, IH1 c Hn)) as Hlen.
    rewrite He in Hlen. simpl in Hlen. lia.
  - intros Hn (ms & Hl & HF & ->) He.
    pose proof (concat_nonempty_length _ ms HF (λ c, IH1 c Hn)) as Hlen.
    rewrite He in Hlen. simpl in Hlen. lia.
  - auto.
Qed.

(** Every word of the language at the head of the subject is found. *)
Lemma rmatch_complete r c rest :
  productive r = true → lang r c → ∃ g, In (c, rest, g) (rmatch r (c +:+ rest)).
Proof.
  revert c rest;
    induction r as [p|l|r1 IH1 r2 IH2|r1 IH1 r2 IH2|r1 IH1|r1 IH1 lo hi|r1 IH1|n r1 IH1];
    intros c rest; cbn [rmatch lang productive].
  - intros _ (x & -> & Hx). simpl. rewrite Hx. exists []. now left.
  - intros _ ->. rewrite strip_prefix_app. exists []. now left.
  - intros Hp (m1 & m2 & -> & H1 & H2). apply andb_true_iff in Hp as [Hp1 Hp2].
    destruct (IH1 m1 (m2 +:+ rest) Hp1 H1) as (g1 & Hg1).
    destruct (IH2 m2 rest Hp2 H2) as (g2 & Hg2).
    exists (g2 ++ g1)%list. rewrite app_assoc.
    apply in_flat_map. eexists; split; [exact Hg1|].
    apply in_then_match. eexists; split; [exact Hg2|]. reflexivity.
  - intros Hp. apply andb_true_iff in Hp as [Hp1 Hp2].
    intros [H|H]; [destruct (IH1 c rest Hp1 H) as (g & Hg)
                  | destruct (IH2 c rest Hp2 H) as (g & Hg)];
      exists g; rewrite in_app_iff; auto.
  - intros Hp [H| ->].
    + destruct (IH1 c rest Hp H) as (g & Hg). exists g. rewrite in_app_iff; auto.
    + exists []. rewrite in_app_iff. right. now left.
  - intros Hp (ms & Hl & HF & ->).
    apply rep_complete with (P := lang r1); auto.
  - intros Hp (ms & Hl & HF & ->). apply andb_true_iff in Hp as [Hp Hn].
    apply negb_true_iff in Hn.
    apply rep_complete with (P := lang r1); auto.
    pose proof (concat_nonempty_length _ ms HF (λ c, nullable_false r1 c Hn)).
    rewrite length_app. lia.
  - intros Hp H. destruct (IH1 c rest Hp H) as (g & Hg).
    exists ((n, c) :: g). apply in_map_iff. eexists; split; [|exact Hg]. reflexivity.
Qed.

(** [pattern.match(s)] succeeds exactly when a prefix of [s] is in the
    language. *)
Lemma re_match_iff r s :
  productive r = true →
  (∃ x, re_match r s = Some x) ↔ ∃ c rest, s = c +:+ rest ∧ lang r c.
Proof.
  intros Hp. unfold re_match. split.
  - intros (x & Hx). destruct (rmatch r s) as [|y l] eqn:E; [discriminate|].
    injection Hx as ->. destruct (rmatch_sound r s x) as [Hs Hl]; [rewrite E; now left|].
    eauto.
  - intros (c & rest & -> & Hl).
    destruct (rmatch_complete r c rest Hp Hl) as (g & Hg).
    destruct (rmatch r (c +:+ rest)) as [|y l]; [destruct Hg | simpl; eauto].
Qed.

(** A pattern [x{lo,hi}] over a character class matches the strings of
    [lo] to [hi] characters of the class. *)
Lemma lang_rep_chr p lo hi m :
  lang (Rep (Chr p) lo hi) m ↔
  (lo ≤ String.length m ≤ hi)%nat ∧ all p m = true.
Proof.
  simpl. split.
  - intros (ms & Hl & HF & ->). destruct (concat_chars p ms HF) as [H1 H2].
    rewrite H1. auto.
  - intros [Hl Ha]. destruct (chars_concat p m Ha) as (ms & HF & Hlen & ->).
    exists ms. rewrite Hlen. auto.
Qed.

(** [re.search]: a match it returns starts at some position of the
    subject. *)
Lemma re_search_Some r s x :
  re_search r s = Some x → ∃ pre s', s = pre +:+ s' ∧ In x (rmatch r s').
Proof.
  induction s as [|c s IH]; simpl.
  - destruct (rmatch r "") as [|y l] eqn:E; [discriminate|].
    intros [= ->]. exists "", "". rewrite E. simpl; auto.
  - destruct (rmatch r (String c s)) as [|y l] eqn:E.
    + intros H. destruct (IH H) as (pre & s' & -> & Hin).
      exists (String c pre), s'. auto.
    + intros [= ->]. exists "", (String c s). rewrite E. simpl; auto.
Qed.

End ReFacts.

(** ** The URL validator *)

Module UrlFacts.
Import Str StrFacts Re ReFacts.

Lemma lang_plus_chr p m :
  lang (Plus (Chr p)) m ↔ m ≠ "" ∧ all p m = true.
Proof.
  cbn [lang]. split.
  - intros (ms & Hl & HF & ->). destruct (concat_chars p ms HF) as [H1 H2].
    split; [|assumption]. intros He. rewrite He in H1. simpl in H1. lia.
  - intros [Hne Ha]. destruct (chars_concat p m Ha) as (ms & HF & Hlen & ->).
    exists ms. repeat split; auto. destruct ms; [now destruct Hne | simpl; lia].
Qed.


Lemma lang_scheme m :
  lang (Opt (Grp 1 (Lit "http" ⋅ Opt (Lit "s") ⋅ Lit "://"))) m
  ↔ In m [""; "http://"; "https://"].
Proof.
  cbn [lang]. split.
  - intros [(a & b & -> & -> & a' & b' & -> & [-> | ->] & ->) | ->]; simpl; auto.
  - simpl. intros [<- | [<- | [<- | []]]]; [now right | left | left].
    + exists "http", "://". repeat split. exists "", "://". auto.
    + exists "http", "s://". repeat split. exists "s", "://". auto.
Qed.

Lemma lang_www m : lang (Opt (Grp 2 (Lit "www."))) m ↔ In m [""; "www."].
Proof. cbn [lang]. simpl. intuition. Qed.

Lemma lang_host m :
  lang (Grp 3 (Lit "youtube" ∣ Lit "youtu" ∣ Lit "youtube-nocookie")) m
  ↔ In m ["youtube"; "youtu"; "youtube-nocookie"].
Proof. cbn [lang]. simpl. intuition. Qed.

Lemma lang_tld m : lang (Grp 4 (Lit "com" ∣ Lit "be")) m ↔ In m ["com"; "be"].
Proof. cbn [lang]. simpl. intuition. Qed.

Lemma lang_form m :
  lang (Opt (Grp 5 (Lit "watch?v=" ∣ Lit "embed/" ∣ Lit "v/"
                    ∣ Plus (Chr dot) ⋅ Lit "?v="))) m
  ↔ positional_form m.
Proof.
  unfold positional_form. split.
  - intros [[H | [H | [H | (x & y & -> & Hx & Hy)]]] | H]; auto.
    apply lang_plus_chr in Hx as [Hne Ha]. simpl in Hy. subst y.
    right; right; right; right. eauto.
  - intros [-> | [-> | [-> | [-> | (x & Hne & Ha & ->)]]]].
    + now right.
    + left; now left.
    + left; right; now left.
    + left; right; right; now left.
    + left; right; right; right. exists x, "?v=". repeat split.
      apply lang_plus_chr. auto.
Qed.

Lemma lang_token m :
  lang (Grp 6 (Rep (Chr id_char) 11 11)) m ↔ id_token m = true.
Proof.
  change (lang (Grp 6 (Rep (Chr id_char) 11 11)) m)
    with (lang (Rep (Chr id_char) 11 11) m).
  rewrite lang_rep_chr. unfold id_token.
  rewrite andb_true_iff, Nat.eqb_eq. intuition lia.
Qed.

Lemma lang_youtube c :
  lang youtube_regex c ↔
  ∃ pre form tok, c = pre +:+ form +:+ tok
     ∧ url_head pre ∧ positional_form form ∧ id_token tok = true.
Proof.
  unfold youtube_regex. split.
  - intros (sch & c1 & -> & Hsch & www & c2 & -> & Hwww & host & c3 & -> & Hhost
            & pt & c4 & -> & Hpt & tld & c5 & -> & Htld & sl & c6 & -> & Hsl
            & form & tok & -> & Hform & Htok).
    apply lang_scheme in Hsch. apply lang_www in Hwww. apply lang_host in Hhost.
    apply lang_tld in Htld. apply lang_form in Hform. apply lang_token in Htok.
    simpl in Hpt, Hsl. subst pt sl.
    exists (sch +:+ www +:+ host +:+ "." +:+ tld +:+ "/"), form, tok.
    split; [now rewrite !app_assoc|].
    split; [|auto]. exists sch, www, host, tld. auto.
  - intros (pre & form & tok & -> & (sch & www & host & tld & -> & Hsch & Hwww & Hhost & Htld)
            & Hform & Htok).
    apply lang_scheme in Hsch. apply lang_www in Hwww. apply lang_host in Hhost.
    apply lang_tld in Htld. apply lang_form in Hform. apply lang_token in Htok.
    exists sch, (www +:+ host +:+ "." +:+ tld +:+ "/" +:+ form +:+ tok).
    split; [now rewrite !app_assoc|]. split; [assumption|].
    exists www, (host +:+ "." +:+ tld +:+ "/" +:+ form +:+ tok).
    split; [reflexivity|]. split; [assumption|].
    exists host, ("." +:+ tld +:+ "/" +:+ form +:+ tok).
    split; [reflexivity|]. split; [assumption|].
    exists ".", (tld +:+ "/" +:+ form +:+ tok).
    split; [reflexivity|]. split; [reflexivity|].
    exists tld, ("/" +:+ form +:+ tok).
    split; [reflexivity|]. split; [assumption|].
    exists "/", (form +:+ tok).
    split; [reflexivity|]. split; [reflexivity|].
    exists form, tok. auto.
Qed.

Lemma is_valid_youtube_url_iff s :
  is_valid_youtube_url s = true ↔ has_video_id s.
Proof.
  unfold is_valid_youtube_url, has_video_id.
  pose proof (re_match_iff youtube_regex s eq_refl) as Hm.
  split.
  - destruct (re_match youtube_regex s) as [x|]; [intros _ | discriminate].
    destruct (proj1 Hm (ex_intro _ x eq_refl)) as (c & rest & -> & Hc).
    apply lang_youtube in Hc as (pre & form & tok & -> & Hpre & Hform & Htok).
    exists pre, form, tok, rest. rewrite !app_assoc. auto.
  - intros (pre & form & tok & rest & -> & Hpre & Hform & Htok).
    destruct (proj2 Hm) as (x & ->); [|reflexivity].
    exists (pre +:+ form +:+ tok), rest. split; [now rewrite !app_assoc|].
    apply lang_youtube. eauto 10.
Qed.

Lemma contains_id_run_here tok rest :
  id_token tok = true → contains_id_run (tok +:+ rest) = true.
Proof.
  intros H. assert (Hl : String.length tok = 11%nat).
  { unfold id_token in H. apply andb_true_iff in H as [H _]. now apply Nat.eqb_eq. }
  assert (Ht : take 11 (tok +:+ rest) = tok) by (rewrite <- Hl; apply take_app).
  destruct (tok +:+ rest) eqn:E; cbn [contains_id_run]; rewrite Ht, H; reflexivity.
Qed.

Lemma contains_id_run_app pre s :
  contains_id_run s = true → contains_id_run (pre +:+ s) = true.
Proof.
  intros H. induction pre as [|c pre IH]; [exact H|].
  cbn [String.append contains_id_run]. rewrite IH. apply orb_true_r.
Qed.

Lemma has_video_id_run s : has_video_id s → contains_id_run s = true.
Proof.
  intros (pre & form & tok & rest & -> & _ & _ & Htok).
  rewrite <- app_assoc. apply contains_id_run_app, contains_id_run_here, Htok.
Qed.

Lemma is_valid_youtube_url_app s t :
  is_valid_youtube_url s = true → is_valid_youtube_url (s +:+ t) = true.
Proof.
  rewrite !is_valid_youtube_url_iff.
  intros (pre & form & tok & rest & -> & H).
  exists pre, form, tok, (rest +:+ t). now rewrite !app_assoc.
Qed.

(** The shapes of URL the program is meant for are accepted, with or
    without scheme and [www.]. *)
Lemma recognized_shapes_accepted :
  forallb is_valid_youtube_url
    ["https://www.youtube.com/watch?v=dQw4w9WgXcQ";
     "http://www.youtube.com/watch?v=dQw4w9WgXcQ";
     "www.youtube.com/watch?v=dQw4w9WgXcQ";
     "youtube.com/watch?v=dQw4w9WgXcQ";
     "https://youtu.be/dQw4w9WgXcQ";
     "youtu.be/dQw4w9WgXcQ";
     "https://www.youtube.com/embed/dQw4w9WgXcQ";
     "https://www.youtube-nocookie.com/embed/dQw4w9WgXcQ";
     "https://www.youtube.com/v/dQw4w9WgXcQ";
     "https://www.youtube.com/watch?feature=share?v=dQw4w9WgXcQ"] = true
  ∧ forallb (λ url, negb (is_valid_youtube_url url))
      [""; "https://www.youtube.com/"; "https://www.youtube.com/watch?v=short";
       "https://vimeo.com/watch?v=dQw4w9WgXcQ"; "dQw4w9WgXcQ";
       "ftp://youtube.com/watch?v=dQw4w9WgXcQ"] = true.
Proof. split; vm_compute; reflexivity. Qed.

End UrlFacts.

(** C7. A string that contains no 11-character video-identifier token is
    rejected by [is_valid_youtube_url]: neither a string with no token in
    a recognized position after a recognized host, nor one that has no run
    of eleven identifier characters anywhere, nor the empty string, is
    accepted. *)
Theorem url_without_video_id_rejected :
  (∀ s, ¬ has_video_id s → is_valid_youtube_url s = false)
  ∧ (∀ s, contains_id_run s = false → is_valid_youtube_url s = false)
  ∧ is_valid_youtube_url "" = false.
Proof.
  split; [|split; [|reflexivity]].
  - intros s Hno. destruct (is_valid_youtube_url s) eqn:E; [|reflexivity].
    apply UrlFacts.is_valid_youtube_url_iff in E. contradiction.
  - intros s Hno. destruct (is_valid_youtube_url s) eqn:E; [|reflexivity].
    apply UrlFacts.is_valid_youtube_url_iff, UrlFacts.has_video_id_run in E.
    congruence.
Qed.

Lemma no_video_id_in_empty : ¬ has_video_id "".
Proof.
  intros (pre & form & tok & rest & E & _ & _ & Htok).
  symmetry in E. apply StrFacts.app_eq_nil in E as [_ E].
  apply StrFacts.app_eq_nil in E as [_ E].
  apply StrFacts.app_eq_nil in E as [-> _]. discriminate.
Qed.

Lemma url_without_video_id_rejected_witness :
  is_valid_youtube_url "" = false
  ∧ is_valid_youtube_url "youtu.be/a?b=c" = false.
Proof.
  split.
  - apply (proj1 url_without_video_id_rejected ""). exact no_video_id_in_empty.
  - apply (proj1 (proj2 url_without_video_id_rejected) "youtu.be/a?b=c").
    reflexivity.
Defined.

(** C10. The validator anchors the pattern at the start only and its
    positional-form group is optional: a host followed directly by any
    eleven characters outside [&=%?] is accepted, and so is every accepted
    string followed by arbitrary text. *)
Theorem url_validator_accepts_more :
  (∀ tok, id_token tok = true → is_valid_youtube_url ("youtube.com/" +:+ tok) = true)
  ∧ (∀ s t, is_valid_youtube_url s = true → is_valid_youtube_url (s +:+ t) = true)
  ∧ is_valid_youtube_url "youtube.com/abcdefghijk" = true
  ∧ is_valid_youtube_url "youtube.com/ not a video" = true
  ∧ is_valid_youtube_url "https://youtu.be/dQw4w9WgXcQ<script>" = true.
Proof.
  split; [|split; [exact UrlFacts.is_valid_youtube_url_app | repeat split]].
  intros tok Htok. apply UrlFacts.is_valid_youtube_url_iff.
  exists "youtube.com/", "", tok, "". split; [now rewrite StrFacts.app_nil_r|].
  split; [|split; [now left | exact Htok]].
  exists "", "", "youtube", "com". simpl. auto 10.
Qed.

Lemma url_validator_accepts_more_witness :
  is_valid_youtube_url ("youtube.com/" +:+ "abcdefghijk") = true
  ∧ is_valid_youtube_url ("https://youtu.be/dQw4w9WgXcQ" +:+ " is my favourite") = true.
Proof.
  split.
  - apply (proj1 url_validator_accepts_more "abcdefghijk"). reflexivity.
  - apply (proj1 (proj2 url_validator_accepts_more)
             "https://youtu.be/dQw4w9WgXcQ" " is my favourite").
    reflexivity.
Defined.

(** ** The progress-line parser *)

Module ParserFacts.
Import Str StrFacts Re ReFacts.

Lemma is_digit_val c : is_digit c = true → 0 ≤ digit_val c ≤ 9.
Proof.
  unfold is_digit, digit_val. rewrite andb_true_iff, !Nat.leb_le. lia.
Qed.

Lemma is_digit_not_point c : is_digit c = true → Ascii.eqb c "." = false.
Proof.
  intros H. destruct (Ascii.eqb_spec c ".") as [->|]; [discriminate H | reflexivity].
Qed.

Lemma digits_val_all s : ∀ acc,
  all is_digit s = true →
  ∃ v, digits_val acc s = Some (acc * 10 ^ Z.of_nat (String.length s) + v)
       ∧ 0 ≤ v < 10 ^ Z.of_nat (String.length s).
Proof.
  induction s as [|c s IH]; intros acc H.
  - exists 0. simpl. split; [f_equal; lia | lia].
  - cbn [all] in H. apply andb_true_iff in H as [Hc Hs].
    cbn [digits_val]. rewrite Hc.
    destruct (IH (10 * acc + digit_val c) Hs) as (v & -> & Hv).
    pose proof (is_digit_val c Hc) as Hd.
    cbn [String.length]. rewrite Nat2Z.inj_succ, Z.pow_succ_r by lia.
    set (p := 10 ^ Z.of_nat (String.length s)) in *.
    exists (digit_val c * p + v). split; [f_equal; lia | nia].
Qed.

Lemma split_point_digits ds :
  all is_digit ds = true → split_point ds = (ds, None).
Proof.
  induction ds as [|c ds IH]; cbn [all split_point]; [reflexivity|].
  intros H. apply andb_true_iff in H as [Hc Hs].
  rewrite (is_digit_not_point c Hc), (IH Hs). reflexivity.
Qed.

Lemma split_point_decimal ds fs :
  all is_digit ds = true → split_point (ds +:+ String "." fs) = (ds, Some fs).
Proof.
  induction ds as [|c ds IH]; cbn [all split_point String.append]; [reflexivity|].
  intros H. apply andb_true_iff in H as [Hc Hs].
  rewrite (is_digit_not_point c Hc), (IH Hs). reflexivity.
Qed.

(** [float] of what the integer pattern captures *)
Lemma float_of_str_integer ds :
  all is_digit ds = true → (1 ≤ String.length ds ≤ 3)%nat →
  ∃ n, 0 ≤ n < 1000 ∧ float_of_str ds = Float.round n 1.
Proof.
  intros Hd Hl. unfold float_of_str. rewrite (split_point_digits ds Hd).
  rewrite app_nil_r.
  destruct (digits_val_all ds 0 Hd) as (v & Hv & Hr).
  destruct ds as [|c ds]; [simpl in Hl; lia|]. rewrite Hv.
  exists v. split; [|reflexivity].
  assert (10 ^ Z.of_nat (String.length (String c ds)) ≤ 10 ^ 3)
    by (apply Z.pow_le_mono_r; lia).
  lia.
Qed.

(** [float] of what the decimal pattern captures *)
Lemma float_of_str_decimal ds f :
  all is_digit ds = true → (1 ≤ String.length ds ≤ 3)%nat → is_digit f = true →
  ∃ n, 0 ≤ n < 10000 ∧ float_of_str (ds +:+ "." +:+ String f "") = Float.round n 10.
Proof.
  intros Hd Hl Hf. unfold float_of_str.
  change (ds +:+ "." +:+ String f "") with (ds +:+ String "." (String f "")).
  rewrite (split_point_decimal ds _ Hd).
  assert (Hall : all is_digit (ds +:+ String f "") = true).
  { rewrite all_app, Hd. simpl. now rewrite Hf. }
  destruct (digits_val_all _ 0 Hall) as (v & Hv & Hr).
  rewrite length_app in Hr. cbn [String.length] in Hr.
  destruct (ds +:+ String f "") as [|c s] eqn:E.
  { apply app_eq_nil in E as [_ E]. discriminate. }
  rewrite Hv. exists v. split; [|reflexivity].
  assert (10 ^ Z.of_nat (String.length ds + 1) ≤ 10 ^ 4)
    by (apply Z.pow_le_mono_r; lia).
  lia.
Qed.


Lemma forall_from_spec n f : ∀ z0,
  forall_from z0 n f = true → ∀ z, z0 ≤ z < z0 + Z.of_nat n → f z = true.
Proof.
  induction n as [|n IH]; intros z0 H z Hz; [lia|].
  cbn [forall_from] in H. apply andb_true_iff in H as [H1 H2].
  destruct (Z.eq_dec z z0) as [->|]; [assumption|].
  apply (IH (z0 + 1)); [assumption | lia].
Qed.

Lemma round_tenths_table : forall_from 0 (Z.to_nat 10000) (round_ok 10) = true.
Proof. vm_compute. reflexivity. Qed.

Lemma round_units_table : forall_from 0 (Z.to_nat 1000) (round_ok 1) = true.
Proof. vm_compute. reflexivity. Qed.

Lemma round_ok_Some d n :
  round_ok d n = true →
  ∃ x, Float.round n d = Some x ∧ percent_within true 1000 (PyFloat x) = true.
Proof. unfold round_ok. destruct (Float.round n d); [eauto | discriminate]. Qed.

(** What group 1 of a pattern [(r)%] holds after a match. *)
Lemma rmatch_group1 r s x :
  In x (rmatch (Grp 1 r ⋅ Lit "%") s) →
  ∃ c, group 1 (captures x) = Some c ∧ lang r c.
Proof.
  cbn [rmatch]. intros H. apply in_flat_map in H as (x1 & H1 & H).
  apply in_map_iff in H1 as (x0 & <- & H0).
  apply in_then_match in H as (y & Hy & ->).
  destruct (strip_prefix "%" _); [|destruct Hy].
  destruct Hy as [<-|[]]. exists (consumed x0). split; [reflexivity|].
  apply (rmatch_sound r s x0 H0).
Qed.

(** Whatever line the patterns match, [float] of group 1 succeeds and
    lies in [0, 1000). *)
Lemma search_percent_float line m :
  search_percent line = Some m →
  ∃ x, group1_float m = Some x ∧ percent_within true 1000 (PyFloat x) = true.
Proof.
  unfold search_percent, group1_float.
  destruct (re_search percent_decimal_re line) as [m1|] eqn:E1.
  - intros [= <-]. apply re_search_Some in E1 as (pre & s' & _ & Hin).
    apply rmatch_group1 in Hin as (c & -> & ds & r & -> & Hds & pt & f & -> & Hpt & ch & -> & Hch).
    apply lang_rep_chr in Hds as [Hl Hd]. cbn [lang] in Hpt. subst pt.
    destruct (float_of_str_decimal ds ch Hd Hl Hch) as (n & Hn & ->).
    apply round_ok_Some, (forall_from_spec _ _ 0 round_tenths_table). lia.
  - intros E2. apply re_search_Some in E2 as (pre & s' & _ & Hin).
    apply rmatch_group1 in Hin as (c & -> & Hds).
    apply lang_rep_chr in Hds as [Hl Hd].
    destruct (float_of_str_integer c Hd Hl) as (n & Hn & ->).
    apply round_ok_Some, (forall_from_spec _ _ 0 round_units_table). lia.
Qed.

Lemma percent_of_line_range line :
  percent_within true 1000 (percent_of_line line) = true.
Proof.
  unfold percent_of_line. destruct (search_percent line) as [m|] eqn:E; [|reflexivity].
  destruct (search_percent_float line m E) as (x & -> & Hx). exact Hx.
Qed.

Lemma percent_within_ge0 strict hi p :
  percent_within strict hi p = true → (if ge0 p then p else PyInt (-1)) = p.
Proof.
  destruct p as [z|x]; simpl.
  - intros ->%Z.eqb_eq. reflexivity.
  - unfold Float.nonneg. intros [-> _]%andb_true_iff. reflexivity.
Qed.

End ParserFacts.

(** ** What the patterns find in a line *)

Module SearchFacts.
Import Str StrFacts Re ReFacts.































End SearchFacts.

(** ** The process runner *)

Module RunnerFacts.
Import Str.

Lemma for_each_ext {A} (f g : A → M ()) l :
  (∀ x t, f x t = g x t) → ∀ t, for_each f l t = for_each g l t.
Proof.
  intros Hfg. induction l as [|x l IH]; intros t; cbn [for_each]; [reflexivity|].
  unfold mbind, M_bind. rewrite Hfg. destruct (g x t) as [[[]|e] t']; auto.
Qed.

Lemma for_each_total {A} (f : A → M ()) l :
  (∀ x t, (f x t).1 = Ok ()) → ∀ t, (for_each f l t).1 = Ok ().
Proof.
  intros Hf. induction l as [|x l IH]; intros t; cbn [for_each]; [reflexivity|].
  unfold mbind, M_bind. specialize (Hf x t).
  destruct (f x t) as [[[]|e] t']; [apply IH | discriminate Hf].
Qed.

(** A loop whose body posts one callback per element posts them in the
    order of the list and touches nothing else. *)
Lemma for_each_posts {A} (f : A → M ()) (g : A → callback) l :
  (∀ x t, f x t = (Ok (), Trace (posted t ++ [g x]) (invoked t))) →
  ∀ t, for_each f l t = (Ok (), Trace (posted t ++ map g l) (invoked t)).
Proof.
  intros Hf. induction l as [|x l IH]; intros t; cbn [for_each].
  - unfold mret, M_ret. destruct t. simpl. now rewrite app_nil_r.
  - unfold mbind, M_bind. rewrite Hf, IH. simpl. now rewrite <- app_assoc.
Qed.

(** One line, one call: the parsed percent when a pattern matches, [-1]
    otherwise, together with the stripped line. *)
Lemma on_line_total cb raw t :
  total cb →
  on_line (Some cb) raw t = cb (percent_of_line (strip raw)) (strip raw) t.
Proof.
  intros Hcb. unfold on_line, percent_of_line.
  destruct (search_percent (strip raw)) as [m|]; [|reflexivity].
  unfold try_except, mbind, M_bind, mret, M_ret, raise, report.
  destruct (group1_float m) as [x|].
  - specialize (Hcb (PyFloat x) (strip raw) t).
    destruct (cb (PyFloat x) (strip raw) t) as [[[]|e] t']; [reflexivity | discriminate Hcb].
  - reflexivity.
Qed.


(** The same for a caller that may pass no callback. *)
Lemma on_line_report progress_callback raw t :
  (∀ cb, progress_callback = Some cb → total cb) →
  on_line progress_callback raw t
  = report progress_callback (percent_of_line (strip raw)) (strip raw) t.
Proof.
  intros Hcb. destruct progress_callback as [cb|].
  - apply on_line_total. now apply Hcb.
  - unfold on_line, percent_of_line, report.
    destruct (search_percent (strip raw)) as [m|]; [|reflexivity].
    unfold try_except, mbind, M_bind, mret, M_ret, raise.
    destruct (group1_float m); reflexivity.
Qed.

Lemma report_total progress_callback p line t :
  (∀ cb, progress_callback = Some cb → total cb) →
  (report progress_callback p line t).1 = Ok ().
Proof.
  intros Hcb. destruct progress_callback as [cb|]; [|reflexivity].
  now apply Hcb.
Qed.

Lemma progress_cb_posts p status t :
  progress_cb p status t =
  (Ok (), Trace (posted t ++ [UpdateProgress (if ge0 p then p else PyInt (-1)) status])
                (invoked t)).
Proof. unfold progress_cb, try_except, after. destruct (ge0 p); reflexivity. Qed.

Lemma progress_cb_total : total progress_cb.
Proof. intros p l t. now rewrite progress_cb_posts. Qed.

Lemma record_progress_total : total record_progress.
Proof. intros p l t. reflexivity. Qed.

Lemma on_line_progress_cb raw t :
  on_line (Some progress_cb) raw t =
  (Ok (), Trace (posted t ++ [line_event raw]) (invoked t)).
Proof.
  rewrite on_line_total by exact progress_cb_total.
  rewrite progress_cb_posts.
  now rewrite (ParserFacts.percent_within_ge0 _ _ _ (ParserFacts.percent_of_line_range _)).
Qed.

(** The whole run of [_run_yt_dlp_download] with the worker's callback. *)
Lemma run_with_progress_cb os exe url outtmpl fmt ffmpeg extra t :
  let cmd := build_cmd exe url outtmpl fmt ffmpeg extra in
  _run_yt_dlp_download os exe url outtmpl fmt ffmpeg (Some progress_cb) extra t =
  match popen os cmd with
  | Raise e => (Raise e, Trace (posted t) (invoked t ++ [Popen cmd]))
  | Ok p =>
      (run_outcome p,
       Trace (posted t ++ map line_event (stdout p)) (invoked t ++ [Popen cmd]))
  end.
Proof.
  intros cmd. unfold _run_yt_dlp_download, run_outcome. fold cmd.
  unfold mbind, M_bind, invoke, lift. cbn [fst snd posted invoked].
  destruct (popen os cmd) as [p|e]; [|reflexivity].
  rewrite (for_each_posts _ line_event) by exact on_line_progress_cb.
  cbn [posted invoked]. destruct (read_error p) as [e|]; [reflexivity|].
  destruct (returncode p =? 0); reflexivity.
Qed.

End RunnerFacts.




(** C9 as stated fails: a line that carries a number above 100 before a
    percent sign (here inside a file name) is forwarded as it is. *)
Lemma progress_percent_above_100 :
  let run := Process ["[download] Destination: Give 200% effort.mp4";
                      "[download] 100% of 3.1MiB in 00:02"] 0 in
  let self := start_download (tool_installed run)
                (fresh_app "https://youtu.be/dQw4w9WgXcQ" "best" "mp4") in
  posted (run_worker (tool_installed run) self "https://youtu.be/dQw4w9WgXcQ")
  = [UpdateProgress (PyFloat (Float.B64 7036874417766400 (-45)))
                    "[download] Destination: Give 200% effort.mp4";
     UpdateProgress (PyFloat (Float.B64 7036874417766400 (-46)))
                    "[download] 100% of 3.1MiB in 00:02";
     DownloadComplete true "Download completed successfully!"]
  ∧ Float.format_1f (Float.B64 7036874417766400 (-45)) = "200.0"
  ∧ percent_within false 100 (PyFloat (Float.B64 7036874417766400 (-45))) = false
  ∧ progress_within false 100
      (posted (run_worker (tool_installed run) self "https://youtu.be/dQw4w9WgXcQ"))
    = false.
Proof. vm_compute. repeat split; reflexivity. Qed.

(** C9, amended. The percent forwarded for an output line is the unknown
    sentinel -1 or a number in [0, 1000): the patterns read up to three
    integer digits and nothing clamps the value to 100.  The foreground
    stores it in the progress variable unless it is the sentinel. *)
Theorem progress_percent_below_1000 :
  (∀ line, percent_within true 1000 (percent_of_line line) = true)
  ∧ (∀ os exe url outtmpl fmt ffmpeg extra,
        progress_within true 1000
          (posted (_run_yt_dlp_download os exe url outtmpl fmt ffmpeg
                     (Some progress_cb) extra (Trace [] [])).2) = true)
  ∧ (∀ p status a,
        progress_var (_update_progress p status a)
        = if ge0 p then p else progress_var a).
Proof.
  split; [exact ParserFacts.percent_of_line_range | split].
  - intros. rewrite RunnerFacts.run_with_progress_cb.
    destruct (popen os _) as [p|e]; [|reflexivity].
    cbn [snd posted]. rewrite app_nil_l. unfold progress_within.
    apply forallb_forall. intros cb Hcb. apply in_map_iff in Hcb as (raw & <- & _).
    apply ParserFacts.percent_of_line_range.
  - intros p status a. unfold _update_progress. destruct (ge0 p); reflexivity.
Qed.

(** C6 as stated fails in its last part: the error names the exit code
    only; a run that printed a diagnostic and a silent run raise the same
    error.  It also fails as an equivalence when the output cannot be read
    or the callback raises: the runner then raises although the exit code
    is 0. *)
Lemma runner_error_omits_output :
  let noisy := Process ["ERROR: [youtube] dQw4w9WgXcQ: Video unavailable"] 1 in
  let silent := Process [] 1 in
  let garbled := Run [] (Some "'utf-8' codec can't decode byte 0xff in position 0: invalid start byte") 0 in
  let run os cb := (_run_yt_dlp_download os "/usr/bin/yt-dlp"
                      "https://youtu.be/dQw4w9WgXcQ" "/home/u/Downloads/%(title)s.%(ext)s"
                      "best[ext=mp4]/best" None (Some cb) None (Trace [] [])).1 in
  run (tool_installed noisy) progress_cb = Raise "yt-dlp exited with 1"
  ∧ run (tool_installed silent) progress_cb = Raise "yt-dlp exited with 1"
  ∧ Str.is_infix "Video unavailable" "yt-dlp exited with 1" = false
  ∧ run (tool_installed garbled) progress_cb
    = Raise "'utf-8' codec can't decode byte 0xff in position 0: invalid start byte"
  ∧ run (tool_installed (Process ["[download] Destination: a.mp4"] 0)) failing_callback
    = Raise "callback failed".
Proof. vm_compute. repeat split; reflexivity. Qed.

(** C6, amended. Once the process is started, its output read to the end
    and no call of the progress callback raised, the runner raises exactly
    when the exit code is not zero; the error message is
    ["yt-dlp exited with <code>"].  The output is not in the error: every
    line has gone to the progress callback.  When reading the output ends
    in an error, that error is raised whatever the exit code; when a call
    of the callback raises out of the loop, that error is raised and the
    rest of the output is not read; when the process does not start, the
    error of starting it is raised. *)
Theorem runner_raises_iff_nonzero_exit
    os exe url outtmpl fmt ffmpeg progress_callback extra t :
  let cmd := build_cmd exe url outtmpl fmt ffmpeg extra in
  let started := Trace (posted t) (invoked t ++ [Popen cmd]) in
  let r := _run_yt_dlp_download os exe url outtmpl fmt ffmpeg
             progress_callback extra t in
  (∀ p, popen os cmd = Ok p →
     (∀ cb, progress_callback = Some cb → total cb) →
     r.2 = (for_each (λ raw, report progress_callback
                               (percent_of_line (Str.strip raw)) (Str.strip raw))
              (stdout p) started).2
     ∧ (read_error p = None →
        (r.1 = Ok () ↔ returncode p = 0)
        ∧ (returncode p ≠ 0 →
           r.1 = Raise ("yt-dlp exited with " +:+ pretty (returncode p))))
     ∧ (∀ e, read_error p = Some e → r.1 = Raise e))
  ∧ (∀ p e, popen os cmd = Ok p →
       (for_each (on_line progress_callback) (stdout p) started).1 = Raise e →
       r = (Raise e, (for_each (on_line progress_callback) (stdout p) started).2))
  ∧ (∀ e, popen os cmd = Raise e → r = (Raise e, started)).
Proof.
  intros cmd started r. subst r. unfold _run_yt_dlp_download. fold cmd.
  unfold mbind, M_bind, invoke, lift. cbn [fst snd posted invoked]. fold started.
  split; [|split].
  - intros p Hp Hcb. rewrite Hp.
    rewrite (RunnerFacts.for_each_ext (on_line progress_callback)
               (λ raw, report progress_callback
                         (percent_of_line (Str.strip raw)) (Str.strip raw)))
      by (intros raw t'; now apply RunnerFacts.on_line_report).
    pose proof (RunnerFacts.for_each_total
                  (λ raw, report progress_callback
                            (percent_of_line (Str.strip raw)) (Str.strip raw))
                  (stdout p)
                  (λ x t', RunnerFacts.report_total progress_callback _ _ t' Hcb)
                  started) as Htot.
    destruct (for_each _ (stdout p) started) as [[[]|e] t']; [|discriminate Htot].
    cbn [fst snd]. destruct (read_error p) as [e|].
    + unfold raise. cbn [fst snd].
      split; [reflexivity|]. split; [discriminate|]. now intros e' [= <-].
    + unfold mret at 1, M_ret at 1. cbn [fst snd].
      destruct (Z.eqb_spec (returncode p) 0) as [Hz|Hne]; cbn [negb].
      * unfold mret, M_ret. cbn [fst snd].
        split; [reflexivity|]. split; [|discriminate].
        intros _. split; [tauto | contradiction].
      * unfold raise. cbn [fst snd].
        split; [reflexivity|]. split; [|discriminate].
        intros _. split; [split; [discriminate | contradiction] | reflexivity].
  - intros p e Hp Hloop. rewrite Hp.
    destruct (for_each (on_line progress_callback) (stdout p) started)
      as [[[]|e'] t']; cbn [fst snd] in *; [discriminate Hloop|].
    now injection Hloop as ->.
  - intros e Hp. rewrite Hp. reflexivity.
Qed.

Lemma runner_raises_iff_nonzero_exit_witness :
  let os := tool_installed (Process ["ERROR: Video unavailable"] 1) in
  (_run_yt_dlp_download os "yt-dlp" "https://youtu.be/dQw4w9WgXcQ" "%(title)s.%(ext)s"
     "best" None (Some record_progress) None (Trace [] [])).1
  = Raise "yt-dlp exited with 1".
Proof.
  intros os.
  refine (proj2 (proj1 (proj2 (proj1 (runner_raises_iff_nonzero_exit os "yt-dlp"
            "https://youtu.be/dQw4w9WgXcQ" "%(title)s.%(ext)s" "best" None
            (Some record_progress) None (Trace [] []))
            (Process ["ERROR: Video unavailable"] 1) eq_refl _)) eq_refl) _).
  - intros cb [= <-]. exact RunnerFacts.record_progress_total.
  - vm_compute. discriminate.
Defined.

(** ** The download worker and the foreground *)

Module WorkerFacts.
Import Str RunnerFacts.

Lemma exe_found_Some os exe :
  exe_found os = Some exe → _find_yt_dlp_exe os = Some exe ∧ truthy exe = true.
Proof.
  unfold exe_found, if_set. destruct (_find_yt_dlp_exe os) as [v|]; [|discriminate].
  destruct (truthy v) eqn:E; [|discriminate]. intros [= ->]. auto.
Qed.

(** The worker on the executable path. *)
Lemma worker_with_exe os self url exe :
  exe_found os = Some exe →
  let cmd := worker_cmd os self url exe in
  run_worker os self url =
  match popen os cmd with
  | Raise e => Trace [completion (Raise e)] [Popen cmd]
  | Ok p =>
      Trace (map line_event (stdout p) ++ [completion (run_outcome p)])
            [Popen cmd]
  end.
Proof.
  intros [Hexe Ht]%exe_found_Some cmd. subst cmd.
  unfold run_worker, _download_thread, worker_cmd, worker_outtmpl, try_except.
  unfold mbind, M_bind. rewrite Hexe. unfold if_set at 1. rewrite Ht.
  destruct (is_audio_format (format_var self)).
  - rewrite run_with_progress_cb. cbn [posted invoked]; rewrite ?app_nil_l.
    destruct (popen os _) as [p|e]; [|reflexivity].
    destruct (run_outcome p) as [[]|e]; reflexivity.
  - rewrite run_with_progress_cb. cbn [posted invoked]; rewrite ?app_nil_l.
    destruct (popen os _) as [p|e]; [|reflexivity].
    destruct (run_outcome p) as [[]|e]; reflexivity.
Qed.

(** The worker on the Python-package path. *)
Lemma worker_without_exe os self url :
  exe_found os = None →
  run_worker os self url =
  match yt_dlp os with
  | None => Trace [completion (Raise "No module named 'yt_dlp'")] []
  | Some download =>
      let run := download (worker_opts os self) [url] in
      Trace (map (λ ps, UpdateProgress ps.1 ps.2) (hook_posts run)
             ++ [completion (match lib_error run with
                             | Some e => Raise e
                             | None => Ok ()
                             end)])
            [YoutubeDL (worker_opts os self) [url]]
  end.
Proof.
  intros Hno.
  unfold run_worker, _download_thread, try_except, mbind, M_bind.
  unfold exe_found in Hno.
  assert (Hif : ∀ (yes : string → M ()) no,
            if_set (_find_yt_dlp_exe os) yes no = no).
  { intros yes no. unfold if_set in *. destruct (_find_yt_dlp_exe os) as [v|]; [|reflexivity].
    destruct (truthy v); [discriminate | reflexivity]. }
  rewrite Hif. unfold ydl_download. fold (worker_outtmpl os self). fold (worker_opts os self).
  destruct (yt_dlp os) as [download|]; [|reflexivity].
  unfold mbind, M_bind, invoke. cbn [posted invoked].
  rewrite (for_each_posts _ (λ ps, UpdateProgress ps.1 ps.2)) by reflexivity.
  cbn [posted invoked]. destruct (lib_error _); reflexivity.
Qed.

(** Whatever happens, the worker posts progress events and then one
    completion callback. *)
Lemma worker_posts os self url :
  ∃ progress outcome,
    posted (run_worker os self url) = progress ++ [completion outcome]
    ∧ forallb is_progress progress = true.
Proof.
  destruct (exe_found os) as [exe|] eqn:E.
  - rewrite (worker_with_exe os self url exe E).
    destruct (popen os _) as [p|e].
    + eexists _, _. split; [reflexivity|].
      apply forallb_forall. intros cb (raw & <- & _)%in_map_iff. reflexivity.
    + exists [], (Raise e). auto.
  - rewrite (worker_without_exe os self url E).
    destruct (yt_dlp os) as [download|].
    + eexists _, _. split; [reflexivity|].
      apply forallb_forall. intros cb (ps & <- & _)%in_map_iff. reflexivity.
    + exists [], (Raise "No module named 'yt_dlp'"). auto.
Qed.

Lemma update_progress_keeps_flag p s a :
  is_downloading (_update_progress p s a) = is_downloading a.
Proof. unfold _update_progress. destruct (ge0 p); reflexivity. Qed.

(** The foreground after a queue that ends with a completion. *)
Lemma mainloop_completion progress ok msg a :
  mainloop (progress ++ [DownloadComplete ok msg]) a
  = _download_complete ok msg (mainloop progress a).
Proof. unfold mainloop. now rewrite fold_left_app. Qed.

Lemma download_complete_idle ok msg a :
  is_downloading (_download_complete ok msg a) = false
  ∧ status_label (_download_complete ok msg a) = "Ready to download"
  ∧ download_button (_download_complete ok msg a) = ("normal", "Download Video").
Proof. destruct ok; repeat split. Qed.

Lemma run_callback_state a b cb :
  download_state a = download_state b →
  download_state (run_callback a cb) = download_state (run_callback b cb).
Proof.
  unfold download_state. intros [= H1 H2 H3 H4].
  destruct cb as [p s|ok msg]; cbn [run_callback].
  - unfold _update_progress. destruct (ge0 p); simpl; congruence.
  - unfold _download_complete. destruct ok; simpl; congruence.
Qed.

Lemma mainloop_state queue a b :
  download_state a = download_state b →
  download_state (mainloop queue a) = download_state (mainloop queue b).
Proof.
  revert a b. induction queue as [|cb queue IH]; intros a b H; [exact H|].
  unfold mainloop in *. cbn [fold_left]. apply IH, run_callback_state, H.
Qed.

Lemma start_download_spawns os self :
  guards_pass os self = true →
  start_download os self =
  start_thread (strip (url_var self))
    (set_progress_var (PyInt 0)
       (set_is_downloading true
          (set_download_button ("disabled", "Downloading...") self))).
Proof.
  unfold guards_pass, start_download.
  intros [[[H1 H2]%andb_true_iff H3]%andb_true_iff H4]%andb_true_iff.
  rewrite H1, H2, H3. apply negb_true_iff in H4. now rewrite H4.
Qed.

End WorkerFacts.

(** ** Sessions *)

Module SessionFacts.
Import WorkerFacts.

Lemma start_download_rejects os a :
  guards_pass os a = false → ∃ d, start_download os a = messagebox d a.
Proof.
  unfold guards_pass, start_download.
  destruct (Str.truthy _); cbn [negb andb]; [|eauto].
  destruct (is_valid_youtube_url _); cbn [negb andb]; [|eauto].
  destruct (path_exists os _); cbn [negb andb]; [|eauto].
  destruct (is_downloading a); cbn [negb]; [eauto | discriminate].
Qed.

Lemma guards_pass_idle os a : guards_pass os a = true → is_downloading a = false.
Proof.
  unfold guards_pass. intros [_ H]%andb_true_iff. now apply negb_true_iff in H.
Qed.

Lemma active_app ws w :
  active (ws ++ [w]) = (active ws + match w with [] => 0 | _ :: _ => 1 end)%nat.
Proof.
  induction ws as [|[|c q] ws IH]; cbn [active app].
  - destruct w; reflexivity.
  - exact IH.
  - now rewrite IH.
Qed.

Lemma active_lookup ws i cb rest :
  ws !! i = Some (cb :: rest) → (1 ≤ active ws)%nat.
Proof.
  revert i. induction ws as [|[|c q] ws IH]; intros [|i]; cbn; try discriminate;
    try lia; eauto.
Qed.

Lemma active_insert ws i cb rest :
  ws !! i = Some (cb :: rest) →
  active (<[i := rest]> ws)
  = match rest with [] => Nat.pred (active ws) | _ :: _ => active ws end.
Proof.
  revert i. induction ws as [|w ws IH]; intros [|i]; try discriminate.
  - intros [= ->]. destruct rest; reflexivity.
  - intros H. change (ws !! i = Some (cb :: rest)) in H.
    change (<[S i := rest]> (w :: ws)) with (w :: <[i := rest]> ws).
    specialize (IH i H). pose proof (active_lookup ws i cb rest H).
    destruct w as [|c q]; cbn [active]; rewrite IH; destruct rest; lia.
Qed.

Lemma well_formed_next cb rest :
  well_formed_worker (cb :: rest) →
  (rest = [] ∧ is_progress cb = false)
  ∨ (rest ≠ [] ∧ is_progress cb = true ∧ well_formed_worker rest).
Proof.
  intros [H | (progress & ok & msg & H & Hp)]; [discriminate|].
  destruct progress as [|p ps]; cbn in H; injection H as -> ->.
  - left. auto.
  - right. cbn in Hp. apply andb_true_iff in Hp as [Hp1 Hp2].
    split; [now destruct ps|]. split; [exact Hp1|].
    right. eauto.
Qed.

Lemma worker_well_formed os self url :
  well_formed_worker (posted (run_worker os self url))
  ∧ posted (run_worker os self url) ≠ [].
Proof.
  destruct (worker_posts os self url) as (progress & outcome & -> & Hp).
  split; [|now destruct progress].
  right. destruct outcome as [[]|e]; cbn [completion]; eauto.
Qed.

Lemma step_ok os s ev : session_ok s → session_ok (step os s ev).
Proof.
  intros [Hwf Hact]. destruct ev as [u q f p| |i]; cbn [step].
  - split; [exact Hwf | exact Hact].
  - destruct (guards_pass os (window s)) eqn:Hg.
    + pose proof (guards_pass_idle _ _ Hg) as Hidle.
      rewrite (start_download_spawns os (window s) Hg).
      unfold spawned. cbn [threads start_thread set_progress_var set_is_downloading
                             set_download_button].
      rewrite drop_app_length. cbn [map].
      set (w := start_thread _ _).
      destruct (worker_well_formed os w (Str.strip (url_var (window s)))) as [Hw Hne].
      split; cbn [window workers].
      * apply Forall_app. split; [exact Hwf | constructor; [exact Hw | constructor]].
      * rewrite active_app, Hact, Hidle.
        destruct (posted _); [congruence | reflexivity].
    + destruct (start_download_rejects os (window s) Hg) as (d & ->).
      unfold spawned. cbn [threads messagebox]. rewrite drop_all. cbn [map].
      rewrite app_nil_r. split; [exact Hwf | exact Hact].
  - destruct (workers s !! i) as [[|cb rest]|] eqn:Hi; try (split; assumption).
    assert (Hw : well_formed_worker (cb :: rest)).
    { eapply Forall_lookup_1 in Hwf; eauto. }
    pose proof (active_lookup _ _ _ _ Hi) as Hpos.
    split; cbn [window workers].
    + apply Forall_insert; [exact Hwf|].
      destruct (well_formed_next cb rest Hw) as [[-> _] | (_ & _ & H)];
        [now left | exact H].
    + rewrite (active_insert _ _ _ _ Hi).
      destruct (well_formed_next cb rest Hw) as [[-> Hc] | (Hne & Hc & _)].
      * destruct cb as [p st|ok msg]; [discriminate|]. cbn [run_callback].
        rewrite (proj1 (download_complete_idle ok msg (window s))).
        rewrite Hact in *. destruct (is_downloading (window s)); [reflexivity | lia].
      * destruct cb as [p st|ok msg]; [|discriminate]. cbn [run_callback].
        rewrite update_progress_keeps_flag. destruct rest; [congruence | exact Hact].
Qed.

(** From a consistent state, whatever the user and the workers do, the
    flag says Running exactly when one worker is unfinished. *)
Lemma session_invariant os evs s : session_ok s → session_ok (run_session os evs s).
Proof.
  revert s. induction evs as [|ev evs IH]; intros s H; [exact H|].
  unfold run_session in *. cbn [fold_left]. apply IH, step_ok, H.
Qed.

Lemma session_single_flight os evs s :
  session_ok s → (active (workers (run_session os evs s)) ≤ 1)%nat.
Proof.
  intros H. destruct (session_invariant os evs s H) as [_ ->].
  destruct (is_downloading _); lia.
Qed.

End SessionFacts.

(** C3. The format selector: quality "best" with container [c] gives
    [best[ext=c]/best], "worst" gives [worst[ext=c]/worst], and a
    resolution token Np (N one of 144, 240, 360, 480, 720) loses its
    trailing [p] and gives
    [best[height<=N][ext=c]/best[height<=N]/best]. *)
Theorem format_expression_by_quality :
  (∀ c, _get_format_string "best" c = "best[ext=" +:+ c +:+ "]/best")
  ∧ (∀ c, _get_format_string "worst" c = "worst[ext=" +:+ c +:+ "]/worst")
  ∧ (∀ N c, In N ["144"; "240"; "360"; "480"; "720"] →
       Str.replace "p" "" (N +:+ "p") = N
       ∧ _get_format_string (N +:+ "p") c
         = "best[height<=" +:+ N +:+ "][ext=" +:+ c +:+ "]/best[height<="
           +:+ N +:+ "]/best")
  ∧ _get_format_string "best" "mp4" = "best[ext=mp4]/best"
  ∧ _get_format_string "720p" "webm"
    = "best[height<=720][ext=webm]/best[height<=720]/best".
Proof.
  split; [reflexivity | split; [reflexivity | split; [|split; reflexivity]]].
  intros N c HN. simpl in HN.
  destruct HN as [<- | [<- | [<- | [<- | [<- | []]]]]]; split; reflexivity.
Qed.

Lemma format_expression_by_quality_witness :
  Str.replace "p" "" ("480" +:+ "p") = "480"
  ∧ _get_format_string ("480" +:+ "p") "mkv"
    = "best[height<=" +:+ "480" +:+ "][ext=" +:+ "mkv" +:+ "]/best[height<="
      +:+ "480" +:+ "]/best".
Proof.
  apply (proj1 (proj2 (proj2 format_expression_by_quality)) "480" "mkv").
  simpl. auto.
Defined.

(** C4. When the container format is mp3 or m4a, whatever the quality,
    the tool is asked for ["bestaudio/best"] and the audio extraction is a
    separate instruction naming the codec: the arguments
    [--extract-audio --audio-format <codec>] ahead of the [-f] option on the
    executable path, a [postprocessors] entry of its own on the
    Python-package path. *)
Theorem audio_format_overrides_expression os self url :
  is_audio_format (format_var self) = true →
  (∀ exe, exe_found os = Some exe →
     invoked (run_worker os self url)
     = [Popen ([exe; "--extract-audio"; "--audio-format"; format_var self;
                "-f"; "bestaudio/best"; "-o"; worker_outtmpl os self]
               ++ ffmpeg_args (_locate_ffmpeg os)
               ++ ["--newline"; url]
               ++ ffmpeg_args (_locate_ffmpeg os))])
  ∧ (∀ download, exe_found os = None → yt_dlp os = Some download →
       invoked (run_worker os self url) = [YoutubeDL (worker_opts os self) [url]]
       ∧ worker_opts os self !! "format" = Some (VStr "bestaudio/best")
       ∧ worker_opts os self !! "postprocessors"
         = Some (VList [VDict [("key", VStr "FFmpegExtractAudio");
                               ("preferredcodec", VStr (format_var self));
                               ("preferredquality", VStr "192")]])).
Proof.
  intros Haudio. split.
  - intros exe Hexe. rewrite (WorkerFacts.worker_with_exe os self url exe Hexe).
    unfold worker_cmd. rewrite Haudio.
    destruct (popen os _); reflexivity.
  - intros download Hno Hlib. rewrite (WorkerFacts.worker_without_exe os self url Hno).
    rewrite Hlib. split; [reflexivity|].
    unfold worker_opts, build_ydl_opts. rewrite Haudio.
    split.
    + rewrite lookup_insert_ne by discriminate. apply lookup_insert_eq.
    + apply lookup_insert_eq.
Qed.

Lemma audio_format_overrides_expression_witness :
  let url := "https://youtu.be/dQw4w9WgXcQ" in
  let self := fresh_app url "720p" "mp3" in
  invoked (run_worker (tool_installed (Process [] 0)) self url)
  = [Popen ["/usr/bin/yt-dlp"; "--extract-audio"; "--audio-format"; "mp3";
            "-f"; "bestaudio/best"; "-o"; "/home/u/Downloads/%(title)s.%(ext)s";
            "--ffmpeg-location"; "/usr/bin"; "--newline"; url;
            "--ffmpeg-location"; "/usr/bin"]]
  ∧ worker_opts (package_only (LibraryRun [] None)) self !! "format"
    = Some (VStr "bestaudio/best")
  ∧ worker_opts (package_only (LibraryRun [] None)) self !! "postprocessors"
    = Some (VList [VDict [("key", VStr "FFmpegExtractAudio");
                          ("preferredcodec", VStr "mp3");
                          ("preferredquality", VStr "192")]]).
Proof.
  intros url self. split.
  - exact (proj1 (audio_format_overrides_expression
                    (tool_installed (Process [] 0)) self url eq_refl)
             "/usr/bin/yt-dlp" eq_refl).
  - exact (proj2 (proj2 (audio_format_overrides_expression
                           (package_only (LibraryRun [] None)) self url eq_refl)
                    (λ _ _, LibraryRun [] None) eq_refl eq_refl)).
Defined.

(** C1. A download worker started by a request that passed the guards
    posts progress events and then exactly one completion callback; once
    the foreground has run what the worker posted, the download flag is
    reset, and throughout a session the flag says Running exactly while
    one worker has callbacks left to run.  The callback reports success
    when nothing raised (on the executable path: the process started, its
    output was read to the end and it exited with code 0) and failure with
    a message ["Download failed: ..."] otherwise (non-zero exit, output
    that cannot be read as text, the process not starting, no executable
    and no Python package, an error of the package). *)
Theorem download_worker_completes os self :
  guards_pass os self = true →
  let url := Str.strip (url_var self) in
  let started := start_download os self in
  let tr := run_worker os started url in
  is_downloading started = true
  ∧ threads started = threads self ++ [url]
  ∧ (∃ progress ok msg,
        posted tr = progress ++ [DownloadComplete ok msg]
        ∧ forallb is_progress progress = true
        ∧ (ok = true → msg = "Download completed successfully!")
        ∧ (ok = false → ∃ e, msg = "Download failed: " +:+ e)
        ∧ (∀ exe p, exe_found os = Some exe →
             popen os (worker_cmd os started url exe) = Ok p →
             progress = map line_event (stdout p)
             ∧ (ok = true ↔ read_error p = None ∧ returncode p = 0)
             ∧ (∀ e, read_error p = Some e → msg = "Download failed: " +:+ e)
             ∧ (read_error p = None → returncode p ≠ 0 →
                msg = "Download failed: yt-dlp exited with " +:+ pretty (returncode p)))
        ∧ (∀ exe e, exe_found os = Some exe →
             popen os (worker_cmd os started url exe) = Raise e →
             ok = false ∧ msg = "Download failed: " +:+ e)
        ∧ (exe_found os = None → yt_dlp os = None → ok = false)
        ∧ (∀ download, exe_found os = None → yt_dlp os = Some download →
             (ok = true ↔ lib_error (download (worker_opts os started) [url]) = None)))
  ∧ is_downloading (mainloop (posted tr) started) = false
  ∧ status_label (mainloop (posted tr) started) = "Ready to download"
  ∧ download_button (mainloop (posted tr) started) = ("normal", "Download Video")
  ∧ (∀ evs s, session_ok s → session_ok (run_session os evs s)).
Proof.
  intros Hg url started tr.
  assert (Hs : started = start_thread url
                 (set_progress_var (PyInt 0)
                    (set_is_downloading true
                       (set_download_button ("disabled", "Downloading...") self))))
    by exact (WorkerFacts.start_download_spawns os self Hg).
  split; [now rewrite Hs|]. split; [now rewrite Hs|].
  assert (Hq : ∃ progress outcome,
             posted tr = progress ++ [completion outcome]
             ∧ forallb is_progress progress = true
             ∧ (∀ exe p, exe_found os = Some exe →
                  popen os (worker_cmd os started url exe) = Ok p →
                  progress = map line_event (stdout p) ∧ outcome = run_outcome p)
             ∧ (∀ exe e, exe_found os = Some exe →
                  popen os (worker_cmd os started url exe) = Raise e → outcome = Raise e)
             ∧ (exe_found os = None → yt_dlp os = None →
                  outcome = Raise "No module named 'yt_dlp'")
             ∧ (∀ download, exe_found os = None → yt_dlp os = Some download →
                  outcome = match lib_error (download (worker_opts os started) [url]) with
                            | Some e => Raise e
                            | None => Ok ()
                            end)).
  { subst tr. destruct (exe_found os) as [exe|] eqn:E.
    - rewrite (WorkerFacts.worker_with_exe os started url exe E).
      destruct (popen os (worker_cmd os started url exe)) as [p|e] eqn:Ep.
      + eexists _, _. split; [reflexivity|]. split.
        { apply forallb_forall. intros cb (raw & <- & _)%in_map_iff. reflexivity. }
        split; [|split; [|split]]; try discriminate.
        * intros exe' x [= <-]. rewrite Ep. intros [= <-]. split; reflexivity.
        * intros exe' x [= <-]. rewrite Ep. discriminate.
      + exists [], (Raise e). split; [reflexivity|]. split; [reflexivity|].
        split; [|split; [|split]]; try discriminate.
        * intros exe' x [= <-]. rewrite Ep. discriminate.
        * intros exe' x [= <-]. rewrite Ep. intros [= <-]. reflexivity.
    - rewrite (WorkerFacts.worker_without_exe os started url E).
      destruct (yt_dlp os) as [download|] eqn:El.
      + eexists _, _. split; [reflexivity|]. split.
        { apply forallb_forall. intros cb (ps & <- & _)%in_map_iff. reflexivity. }
        repeat split; try discriminate. intros download' _ [= <-]. reflexivity.
      + exists [], (Raise "No module named 'yt_dlp'"). split; [reflexivity|].
        split; [reflexivity|]. repeat split; discriminate. }
  destruct Hq as (progress & outcome & Hposted & Hprog & Hexit & Hfail & Hmiss & Hlib).
  split.
  - exists progress.
    destruct outcome as [[]|e0]; cbn [completion] in Hposted;
      eexists _, _; (split; [exact Hposted|]); (split; [exact Hprog|]).
    + split; [reflexivity|]. split; [discriminate|]. split; [|split; [|split]].
      * intros exe p He Hp. destruct (Hexit exe p He Hp) as [Hpr Hout].
        unfold run_outcome in Hout. split; [exact Hpr|].
        destruct (read_error p) as [e|]; [discriminate Hout|].
        destruct (Z.eqb_spec (returncode p) 0); [|discriminate Hout].
        split; [tauto|]. split; [discriminate | contradiction].
      * intros exe e He Hp. specialize (Hfail exe e He Hp). discriminate.
      * intros He Hl. specialize (Hmiss He Hl). discriminate.
      * intros download He Hl. specialize (Hlib download He Hl).
        destruct (lib_error _); [discriminate | tauto].
    + split; [discriminate|]. split; [eauto|]. split; [|split; [|split]].
      * intros exe p He Hp. destruct (Hexit exe p He Hp) as [Hpr Hout].
        unfold run_outcome in Hout. split; [exact Hpr|].
        destruct (read_error p) as [e|].
        { injection Hout as ->. split; [split; [discriminate | intros [? _]; discriminate]|].
          split; [now intros e' [= <-] | discriminate]. }
        destruct (Z.eqb_spec (returncode p) 0) as [|Hne]; [discriminate Hout|].
        injection Hout as ->.
        split; [split; [discriminate | intros [_ ?]; contradiction]|].
        split; [discriminate | reflexivity].
      * intros exe e He Hp. specialize (Hfail exe e He Hp).
        injection Hfail as ->. auto.
      * reflexivity.
      * intros download He Hl. specialize (Hlib download He Hl).
        destruct (lib_error _); [split; discriminate | discriminate].
  - assert (Hidle : ∀ ok msg a,
              is_downloading (_download_complete ok msg a) = false
              ∧ status_label (_download_complete ok msg a) = "Ready to download"
              ∧ download_button (_download_complete ok msg a) = ("normal", "Download Video")
              ∧ (∀ evs s, session_ok s → session_ok (run_session os evs s))).
    { intros ok msg a.
      destruct (WorkerFacts.download_complete_idle ok msg a) as (H1 & H2 & H3).
      repeat split; try assumption; apply SessionFacts.session_invariant; assumption. }
    rewrite Hposted. destruct outcome as [[]|e0]; cbn [completion];
      rewrite WorkerFacts.mainloop_completion; apply Hidle.
Qed.

Lemma download_worker_completes_witness :
  let os := tool_installed
              (Process ["[download]  50.0% of 3.1MiB"; "ERROR: unable to download"] 1) in
  let self := fresh_app " https://youtu.be/dQw4w9WgXcQ " "720p" "mp4" in
  let started := start_download os self in
  let garbled := tool_installed
                   (Run ["[download]  50.0% of 3.1MiB"]
                        (Some "'utf-8' codec can't decode byte 0xff in position 0: invalid start byte")
                        0) in
  is_downloading started = true
  ∧ is_downloading
      (mainloop (posted (run_worker os started (Str.strip (url_var self)))) started)
    = false
  ∧ session_ok (run_session os [ClickDownload; Deliver 0; ClickDownload; Deliver 0]
                  (Session self []))
  ∧ (∃ progress,
        posted (run_worker garbled (start_download garbled self)
                  (Str.strip (url_var self)))
        = progress
          ++ [DownloadComplete false
                "Download failed: 'utf-8' codec can't decode byte 0xff in position 0: invalid start byte"]).
Proof.
  intros os self started garbled.
  pose proof (download_worker_completes os self eq_refl) as H.
  split; [exact (proj1 H)|]. split; [exact (proj1 (proj2 (proj2 (proj2 H))))|].
  split.
  - apply (proj2 (proj2 (proj2 (proj2 (proj2 (proj2 H)))))).
    split; [constructor | reflexivity].
  - destruct (proj1 (proj2 (proj2 (download_worker_completes garbled self eq_refl))))
      as (progress & ok & msg & Hposted & _ & _ & _ & Hexe & _).
    destruct (Hexe "/usr/bin/yt-dlp" _ eq_refl eq_refl) as (_ & Hok & Hmsg & _).
    exists progress. rewrite Hposted, (Hmsg _ eq_refl).
    destruct ok; [|reflexivity].
    destruct (proj1 Hok eq_refl) as [Hnone _]. discriminate Hnone.
Defined.

(** C2 as stated fails in the report: the input guards come before the
    busy check, so a request with an empty URL field made while a download
    runs is answered with the empty-URL warning. *)
Lemma busy_start_with_empty_url :
  let os := tool_installed (Process [] 0) in
  let running := set_is_downloading true (fresh_app "" "best" "mp4") in
  dialogs (start_download os running)
  = [ShowWarning "Warning" "Please enter a YouTube URL"]
  ∧ dialogs (start_download os running)
    ≠ [ShowWarning "Warning" "Download already in progress"].
Proof. split; [reflexivity | discriminate]. Qed.

(** C2, amended. While a download runs, every start request is rejected:
    it shows one message box and changes nothing else, so no second worker
    is started, nothing is queued and the running download's state and
    progress are as before.  The URL and the folder are checked before the
    busy flag, so the message is that of the first guard that fails: the
    empty-URL warning, else the invalid-URL error, else the missing-folder
    error, and "Download already in progress" only when those three
    pass.  In a session that starts consistent, at most one worker is
    unfinished at any time. *)
Theorem start_while_running_rejected :
  (∀ os self,
     is_downloading self = true →
     let url := Str.strip (url_var self) in
     (∃ d, start_download os self = messagebox d self
           ∧ (Str.truthy url = false →
              d = ShowWarning "Warning" "Please enter a YouTube URL")
           ∧ (Str.truthy url = true → is_valid_youtube_url url = false →
              d = ShowError "Error" "Please enter a valid YouTube URL")
           ∧ (Str.truthy url = true → is_valid_youtube_url url = true →
              path_exists os (download_path self) = false →
              d = ShowError "Error" "Download folder does not exist")
           ∧ (Str.truthy url = true → is_valid_youtube_url url = true →
              path_exists os (download_path self) = true →
              d = ShowWarning "Warning" "Download already in progress"))
     ∧ threads (start_download os self) = threads self
     ∧ is_downloading (start_download os self) = true
     ∧ progress_var (start_download os self) = progress_var self
     ∧ status_label (start_download os self) = status_label self
     ∧ (∀ url, run_worker os (start_download os self) url = run_worker os self url)
     ∧ (∀ queue, download_state (mainloop queue (start_download os self))
                 = download_state (mainloop queue self)))
  ∧ (∀ os evs s, session_ok s → (active (workers (run_session os evs s)) ≤ 1)%nat).
Proof.
  split; [|exact SessionFacts.session_single_flight].
  intros os self Hrun url.
  assert (H : ∃ d, start_download os self = messagebox d self
        ∧ (Str.truthy url = false →
           d = ShowWarning "Warning" "Please enter a YouTube URL")
        ∧ (Str.truthy url = true → is_valid_youtube_url url = false →
           d = ShowError "Error" "Please enter a valid YouTube URL")
        ∧ (Str.truthy url = true → is_valid_youtube_url url = true →
           path_exists os (download_path self) = false →
           d = ShowError "Error" "Download folder does not exist")
        ∧ (Str.truthy url = true → is_valid_youtube_url url = true →
           path_exists os (download_path self) = true →
           d = ShowWarning "Warning" "Download already in progress")).
  { unfold start_download. fold url. rewrite Hrun.
    destruct (Str.truthy url); cbn [negb];
      [|eexists; split; [reflexivity|]; repeat split; (reflexivity || discriminate)].
    destruct (is_valid_youtube_url url); cbn [negb];
      [|eexists; split; [reflexivity|]; repeat split; (reflexivity || discriminate)].
    destruct (path_exists os _); cbn [negb];
      eexists; (split; [reflexivity|]); repeat split; (reflexivity || discriminate). }
  split; [exact H|]. destruct H as (d & -> & _).
  split; [reflexivity|]. split; [exact Hrun|]. split; [reflexivity|].
  split; [reflexivity|]. split; [reflexivity|].
  intros queue. apply WorkerFacts.mainloop_state. reflexivity.
Qed.

Lemma start_while_running_rejected_witness :
  let os := tool_installed (Process ["[download] 100% of 3.1MiB"] 0) in
  let idle := fresh_app "https://youtu.be/dQw4w9WgXcQ" "best" "mp4" in
  let running := set_is_downloading true idle in
  start_download os running
  = messagebox (ShowWarning "Warning" "Download already in progress") running
  ∧ threads (start_download os running) = []
  ∧ (active (workers (run_session os [ClickDownload; ClickDownload; Deliver 0;
                                       ClickDownload]
                        (Session idle []))) ≤ 1)%nat.
Proof.
  intros os idle running.
  pose proof (proj1 start_while_running_rejected os running eq_refl) as [_ [Ht _]].
  split; [reflexivity|]. split; [exact Ht|].
  apply (proj2 start_while_running_rejected). split; [constructor | reflexivity].
Defined.

(** ** Rounding to binary64 and to tenths *)

Module FloatFacts.
Import Float.

Lemma round_half_even_spec n d :
  0 < d → 2 * Z.abs (round_half_even n d * d - n) ≤ d.
Proof.
  intros Hd. unfold round_half_even.
  pose proof (Z.div_mod n d ltac:(lia)) as Hdm.
  pose proof (Z.mod_pos_bound n d Hd) as Hr.
  destruct (Z.ltb_spec (2 * (n mod d)) d); [lia|].
  destruct (Z.ltb_spec d (2 * (n mod d))); [lia|].
  destruct (Z.even (n / d)); lia.
Qed.

Lemma round_half_even_nonneg n d : 0 ≤ n → 0 < d → 0 ≤ round_half_even n d.
Proof.
  intros Hn Hd. unfold round_half_even.
  pose proof (Z.div_pos n d Hn Hd).
  destruct (_ <? _); [lia|]. destruct (_ <? _); [lia|]. destruct (Z.even _); lia.
Qed.

(** [round] computes IEEE 754 division: it agrees with [SFdiv] on every
    percentage the parser can read, on the first counts of both view-count
    ranges, on counts spread over the doubles below [2^53], and on
    quotients that are tiny, huge or next to 1. *)
Lemma round_agrees_with_ieee :
  forall_from 0 (Z.to_nat 10000) (agrees_with_ieee 10) = true
  ∧ forall_from 0 (Z.to_nat 1000) (agrees_with_ieee 1) = true
  ∧ forall_from 1000 (Z.to_nat 2000) (agrees_with_ieee 1000) = true
  ∧ forall_from 1000000 (Z.to_nat 2000) (agrees_with_ieee 1000000) = true
  ∧ forall_from 0 (Z.to_nat 2000)
      (λ k, agrees_with_ieee 1000000 (1000000 + 4503599626870 * k)) = true
  ∧ forall_from 0 (Z.to_nat 1000)
      (λ k, agrees_with_ieee (1 + 7 * k) (2 ^ 52 + 123456789 * k)) = true
  ∧ forall_from 0 (Z.to_nat 1000)
      (λ k, agrees_with_ieee (2 ^ 52 + 123456789 * k) (1 + 7 * k)) = true
  ∧ forall_from 0 (Z.to_nat 1000)
      (λ k, agrees_with_ieee (2 ^ 52 + 123456789 * k) (2 ^ 53 - 1 - 7 * k)) = true.
Proof. do 7 (split; [vm_compute; reflexivity|]). vm_compute; reflexivity. Qed.

(** The double nearest to a positive [n / d] whose exponent lies below
    zero: it is [M / 2^k] for the integer [M] nearest to [n * 2^k / d],
    with [k] one of two consecutive scales. *)
Lemma round_pos_spec n d :
  0 < n → 0 < d →
  let e0 := Z.log2 n - Z.log2 d - 53 in
  -1074 ≤ e0 → e0 + 1 < 0 →
  ∃ k M x,
    - (e0 + 1) ≤ k ≤ - e0
    ∧ round_pos n d = Some x
    ∧ 0 ≤ mant x ∧ 0 < den x
    ∧ num x * 2 ^ k = M * den x
    ∧ 2 * Z.abs (M * d - n * 2 ^ k) ≤ d.
Proof.
  intros Hn Hd e0 Hlo Hhi. unfold round_pos. fold e0.
  set (e1 := if _ <? 2 ^ 53 then e0 else e0 + 1).
  assert (He1 : e0 ≤ e1 ≤ e0 + 1) by (subst e1; destruct (_ <? _); lia).
  rewrite (Z.max_l e1 (-1074)) by lia.
  assert (Hs : scaled n d e1 = (n * 2 ^ (- e1), d)).
  { unfold scaled. destruct (Z.leb_spec 0 e1); [lia | reflexivity]. }
  rewrite Hs. cbn [fst snd].
  set (k := - e1). set (M := round_half_even (n * 2 ^ k) d).
  assert (Hk : 0 < k) by lia.
  assert (HP : 0 < 2 ^ k) by (apply Z.pow_pos_nonneg; lia).
  pose proof (round_half_even_spec (n * 2 ^ k) d Hd) as HM. fold M in HM.
  assert (HM0 : 0 ≤ M) by (apply round_half_even_nonneg; nia).
  exists k, M.
  destruct (Z.eqb_spec M (2 ^ 53)) as [HM53|HM53].
  - exists (B64 (2 ^ 52) (e1 + 1)). cbn [mant expo].
    destruct (Z.ltb_spec 971 (e1 + 1)); [lia|].
    change (2 ^ 52 =? 0) with false. cbv iota.
    split; [lia|]. split; [reflexivity|]. split; [lia|].
    unfold num, den. cbn [mant expo].
    destruct (Z.leb_spec 0 (e1 + 1)).
    + split; [lia|]. split; [|exact HM].
      assert (e1 = -1) as He by lia. assert (k = 1) as -> by lia.
      rewrite He, HM53. reflexivity.
    + split; [apply Z.pow_pos_nonneg; lia|]. split; [|exact HM].
      rewrite HM53. replace (- (e1 + 1)) with (k - 1) by lia.
      replace (2 ^ k) with (2 * 2 ^ (k - 1)).
      * change (2 ^ 53) with (2 * 2 ^ 52). ring.
      * rewrite <- Z.pow_succ_r by lia. f_equal. lia.
  - cbn [mant expo]. destruct (Z.ltb_spec 971 e1); [lia|].
    destruct (Z.eqb_spec M 0) as [HMz|HMz].
    + exists (B64 0 0). split; [lia|]. split; [reflexivity|].
      unfold num, den. cbn [mant expo]. change (0 <=? 0) with true. cbv iota.
      split; [lia|]. split; [lia|]. split; [rewrite HMz; reflexivity | exact HM].
    + exists (B64 M e1). split; [lia|]. split; [reflexivity|].
      unfold num, den. cbn [mant expo].
      destruct (Z.leb_spec 0 e1); [lia|]. fold k.
      split; [lia|]. split; [lia|]. split; [reflexivity | exact HM].
Qed.

(** Rounding the double of [n / (20 h)] to tenths gives an integer [t]
    with [t / 10] within half a tenth of the quotient, when the scale of
    the double is fine enough for [h]. *)
Lemma tenths_of_quotient n h x k M :
  0 < h → 0 ≤ k → 10 * h < 2 ^ k →
  0 ≤ mant x → 0 < den x →
  num x * 2 ^ k = M * den x →
  2 * Z.abs (M * (20 * h) - n * 2 ^ k) ≤ 20 * h →
  Z.abs (tenths x * (2 * h) - n) ≤ h.
Proof.
  intros Hh Hk Hfine Hm Hden Hval HM. unfold tenths.
  assert (Hnum : 0 ≤ num x).
  { unfold num. destruct (0 <=? expo x); [|exact Hm].
    apply Z.mul_nonneg_nonneg; [exact Hm | apply Z.pow_nonneg; lia]. }
  rewrite (Z.abs_eq (num x)) by exact Hnum.
  pose proof (round_half_even_spec (10 * num x) (den x) Hden) as Ht.
  set (t := round_half_even (10 * num x) (den x)) in *.
  set (P := 2 ^ k) in *. set (D := den x) in *. set (N := num x) in *.
  assert (HP : 0 < P) by (apply Z.pow_pos_nonneg; lia).
  assert (H1 : 2 * Z.abs (t * P - 10 * M) ≤ P).
  { assert (Z.abs (t * P - 10 * M) * D = Z.abs (t * D - 10 * N) * P) as HE.
    { rewrite <- (Z.abs_eq D) at 1 by lia. rewrite <- (Z.abs_eq P) at 2 by lia.
      rewrite <- !Z.abs_mul. f_equal. nia. }
    pose proof (Z.abs_nonneg (t * D - 10 * N)) as Hnn.
    generalize dependent (Z.abs (t * P - 10 * M)).
    generalize dependent (Z.abs (t * D - 10 * N)).
    intros A2 HA2 Hnn A1 HE.
    assert (2 * A2 * P ≤ D * P) by (apply Z.mul_le_mono_nonneg_r; lia).
    apply (Z.mul_le_mono_pos_r _ _ D); lia. }
  assert (H2 : Z.abs (t * (2 * h) - n) * P ≤ h * P + 10 * h).
  { rewrite <- (Z.abs_eq P) at 1 by lia. rewrite <- Z.abs_mul.
    assert (20 * ((t * (2 * h) - n) * P)
            = 2 * ((t * P - 10 * M) * (20 * h)) + 20 * (M * (20 * h) - n * P)) as HE
      by ring.
    pose proof (Z.abs_triangle (2 * ((t * P - 10 * M) * (20 * h)))
                  (20 * (M * (20 * h) - n * P))) as Htri.
    rewrite <- HE in Htri.
    rewrite !Z.abs_mul, (Z.abs_eq 20), (Z.abs_eq 2), (Z.abs_eq h) in Htri by lia.
    nia. }
  pose proof (Z.abs_nonneg (t * (2 * h) - n)) as Hnn.
  generalize dependent (Z.abs (t * (2 * h) - n)). intros B HB Hnn.
  assert (B * P < (h + 1) * P) by lia.
  apply Z.mul_lt_mono_pos_r in H; lia.
Qed.

End FloatFacts.

Module ViewFacts.
Import Float FloatFacts.

(** [n / (20 h)] formatted with [.1f], for a count below [2^53]: the
    digits are those of a tenth nearest to the exact quotient. *)
Lemma quotient_format_1f n h :
  0 < h → 20 * h ≤ n → n < 2 ^ 53 →
  ∃ x t, true_divide n (20 * h) = Ok x
         ∧ format_1f x = show_tenths false t
         ∧ 0 ≤ t
         ∧ Z.abs (t * (2 * h) - n) ≤ h.
Proof.
  intros Hh Hn Hn53. unfold true_divide.
  destruct (Z.eqb_spec (20 * h) 0) as [|_]; [lia|].
  rewrite Z.sgn_pos, Z.abs_eq, Z.mul_1_r by lia.
  assert (Hd : 0 < 20 * h) by lia. assert (Hn0 : 0 < n) by lia.
  pose proof (Z.log2_spec (20 * h) Hd) as [_ HL].
  pose proof (Z.log2_nonneg (20 * h)) as HL0.
  pose proof (Z.log2_le_mono (20 * h) n Hn) as Hmono.
  assert (Hlog : Z.log2 n < 53) by (apply Z.log2_lt_pow2; lia).
  destruct (round_pos_spec n (20 * h) Hn0 Hd ltac:(lia))
    as (k & M & x & Hk & Hx & Hm & Hden & Hval & HM).
  { assert (1 ≤ Z.log2 (20 * h)); [|lia].
    apply Z.log2_le_pow2; [lia | simpl; lia]. }
  assert (Hfine : 10 * h < 2 ^ k).
  { rewrite Z.pow_succ_r in HL by lia.
    assert (2 ^ Z.log2 (20 * h) ≤ 2 ^ k) by (apply Z.pow_le_mono_r; lia). lia. }
  assert (round n (20 * h) = Some x) as ->.
  { unfold round. destruct n; [lia | exact Hx | lia]. }
  exists x, (tenths x). split; [reflexivity|]. split; [|split].
  - unfold format_1f. destruct (Z.ltb_spec (mant x) 0); [lia | reflexivity].
  - unfold tenths. apply round_half_even_nonneg; lia.
  - apply (tenths_of_quotient n h x k M); auto. lia.
Qed.

End ViewFacts.

(** C8 as stated fails at both ends of "every non-negative integer": a
    count of 0 is shown as unknown, and a count too large for a double to
    hold exactly loses its decimal (beyond the range of a double the
    division raises). *)
Lemma view_count_zero_and_huge :
  view_str 0 = Ok "Unknown views"
  ∧ view_str 0 ≠ Ok (pretty 0 +:+ " views")
  ∧ view_str (2 ^ 60 * 1000000 + 300000) = Ok "1152921504606846976.0M views"
  ∧ (2 ^ 60 * 1000000 + 300000) - 1152921504606846976 * 1000000 = 300000
  ∧ view_str (10 ^ 330) = Raise "integer division result too large for a float".
Proof. vm_compute. repeat split; (reflexivity || discriminate). Qed.

(** C8, amended. For every count [n] with [1 <= n < 2^53]: below 1000
    the line is the count followed by " views"; from 1000 up to 999999 it
    is [n / 1000] to one decimal place followed by "K views"; from
    1000000 on it is [n / 1000000] to one decimal place followed by
    "M views", the decimal shown being within half a tenth of the exact
    quotient.  500 gives "500 views", 1500 gives "1.5K views", 2300000
    gives "2.3M views".  A count of 0 gives "Unknown views". *)
Theorem view_count_abbreviated :
  (∀ n, 1 ≤ n < 2 ^ 53 →
     (n < 1000 → view_str n = Ok (pretty n +:+ " views"))
     ∧ (1000 ≤ n < 1000000 →
        ∃ t, view_str n
             = Ok (pretty (t / 10) +:+ "." +:+ pretty (t mod 10) +:+ "K views")
             ∧ 0 ≤ t ∧ Z.abs (t * 100 - n) ≤ 50)
     ∧ (1000000 ≤ n →
        ∃ t, view_str n
             = Ok (pretty (t / 10) +:+ "." +:+ pretty (t mod 10) +:+ "M views")
             ∧ 0 ≤ t ∧ Z.abs (t * 100000 - n) ≤ 50000))
  ∧ view_str 0 = Ok "Unknown views"
  ∧ view_str 500 = Ok "500 views"
  ∧ view_str 1500 = Ok "1.5K views"
  ∧ view_str 2300000 = Ok "2.3M views".
Proof.
  split; [|repeat split; vm_compute; reflexivity].
  intros n Hn. unfold view_str.
  destruct (Z.eqb_spec n 0) as [|_]; [lia|]. cbn [negb].
  split; [|split].
  - intros Hlt. destruct (Z.leb_spec 1000000 n); [lia|].
    destruct (Z.leb_spec 1000 n); [lia | reflexivity].
  - intros Hr. destruct (Z.leb_spec 1000000 n); [lia|].
    destruct (Z.leb_spec 1000 n); [|lia].
    destruct (ViewFacts.quotient_format_1f n 50 ltac:(lia) ltac:(lia) ltac:(lia))
      as (x & t & Hx & Hf & Ht & Hb).
    change (20 * 50) with 1000 in Hx. rewrite Hx, Hf. exists t.
    unfold Float.show_tenths. cbn [String.append]. rewrite !StrFacts.app_assoc.
    split; [reflexivity | split; [exact Ht | exact Hb]].
  - intros Hr. destruct (Z.leb_spec 1000000 n); [|lia].
    destruct (ViewFacts.quotient_format_1f n 50000 ltac:(lia) ltac:(lia) ltac:(lia))
      as (x & t & Hx & Hf & Ht & Hb).
    change (20 * 50000) with 1000000 in Hx. rewrite Hx, Hf. exists t.
    unfold Float.show_tenths. cbn [String.append]. rewrite !StrFacts.app_assoc.
    split; [reflexivity | split; [exact Ht | exact Hb]].
Qed.

Lemma view_count_abbreviated_witness :
  view_str 999 = Ok (pretty 999 +:+ " views")
  ∧ (∃ t, view_str 999950
          = Ok (pretty (t / 10) +:+ "." +:+ pretty (t mod 10) +:+ "K views")
          ∧ 0 ≤ t ∧ Z.abs (t * 100 - 999950) ≤ 50)
  ∧ (∃ t, view_str 1234567
          = Ok (pretty (t / 10) +:+ "." +:+ pretty (t mod 10) +:+ "M views")
          ∧ 0 ≤ t ∧ Z.abs (t * 100000 - 1234567) ≤ 50000).
Proof.
  split; [|split].
  - apply (proj1 view_count_abbreviated 999); lia.
  - apply (proj1 view_count_abbreviated 999950); lia.
  - apply (proj1 view_count_abbreviated 1234567); lia.
Defined.

(** * Further properties of the code *)

(** ** The locators *)

Module LocatorFacts.

Lemma or_else_None a b : or_else a b = None → b = None.
Proof.
  unfold or_else, Str.if_set. destruct a as [v|]; [|auto].
  destruct (Str.truthy v); [discriminate | auto].
Qed.

Lemma or_else_Some a b p : or_else a b = Some p → a = Some p ∨ b = Some p.
Proof.
  unfold or_else, Str.if_set. destruct a as [v|]; [|auto].
  destruct (Str.truthy v); [intros [= ->]; auto | auto].
Qed.

Lemma has_ffmpeg_eq os dir :
  existsb (λ name, let potential := path_join os dir name in
                   isfile os potential && access_x os potential)
          ["ffmpeg.exe"; "ffmpeg"] = has_ffmpeg os dir.
Proof. unfold has_ffmpeg, usable. simpl. now rewrite orb_false_r. Qed.

Lemma find_ext {A} (f g : A → bool) l :
  (∀ x, f x = g x) → List.find f l = List.find g l.
Proof. intros H. induction l as [|x l IH]; simpl; [reflexivity|]. now rewrite H, IH. Qed.

Lemma locate_ffmpeg_eq os :
  _locate_ffmpeg os =
  if has_ffmpeg os (bundle_dir os) then Some (bundle_dir os)
  else
    match (if isdir os (path_join os (bundle_dir os) "ffmpeg")
           then List.find (has_ffmpeg os) (walk os (path_join os (bundle_dir os) "ffmpeg"))
           else None) with
    | Some root => Some root
    | None => Str.if_set (which os "ffmpeg") (λ w, Some (dirname os w)) None
    end.
Proof.
  unfold _locate_ffmpeg. cbv zeta. rewrite has_ffmpeg_eq.
  rewrite (find_ext _ (has_ffmpeg os) _ (has_ffmpeg_eq os)). reflexivity.
Qed.

Lemma find_first {A} (f : A → bool) before x rest l :
  l = before ++ x :: rest → Forall (λ y, f y = false) before → f x = true →
  List.find f l = Some x.
Proof.
  intros -> Hb Hx. induction Hb as [|y before Hy _ IH]; simpl.
  - now rewrite Hx.
  - now rewrite Hy.
Qed.

Lemma find_none_all {A} (f : A → bool) l :
  Forall (λ y, f y = false) l → List.find f l = None.
Proof. induction 1 as [|y l Hy _ IH]; simpl; [reflexivity | now rewrite Hy]. Qed.

End LocatorFacts.

(** X1. [_find_yt_dlp_exe] prefers the bundle to the search path: a usable
    [yt-dlp.exe] in the bundle folder wins, then a usable [yt-dlp] there,
    and only when neither is usable the search path is asked, [yt-dlp]
    before [yt-dlp.exe].  A path it returns is usable or comes from the
    search path; when it returns nothing, neither bundled candidate is
    usable and the search path has no [yt-dlp.exe]. *)

Theorem bundled_exe_before_path os :
  let c1 := path_join os (bundle_dir os) "yt-dlp.exe" in
  let c2 := path_join os (bundle_dir os) "yt-dlp" in
  (usable os c1 = true → _find_yt_dlp_exe os = Some c1)
  ∧ (usable os c1 = false → usable os c2 = true → _find_yt_dlp_exe os = Some c2)
  ∧ (usable os c1 = false → usable os c2 = false →
     _find_yt_dlp_exe os = or_else (which os "yt-dlp") (which os "yt-dlp.exe"))
  ∧ (∀ p, _find_yt_dlp_exe os = Some p →
       usable os p = true ∨ which os "yt-dlp" = Some p ∨ which os "yt-dlp.exe" = Some p)
  ∧ (_find_yt_dlp_exe os = None →
       usable os c1 = false ∧ usable os c2 = false ∧ which os "yt-dlp.exe" = None).
Proof.
  intros c1 c2. unfold _find_yt_dlp_exe, usable. fold c1 c2. cbn [List.find].
  destruct (isfile os c1 && access_x os c1) eqn:E1;
    [|destruct (isfile os c2 && access_x os c2) eqn:E2].
  - repeat split; intros; simplify_eq; auto.
  - repeat split; intros; simplify_eq; auto.
  - split; [discriminate|]. split; [discriminate|]. split; [reflexivity|]. split.
    + intros p Hp. right. now apply LocatorFacts.or_else_Some.
    + intros H. apply LocatorFacts.or_else_None in H. auto.
Qed.

Lemma bundled_exe_before_path_witness :
  _find_yt_dlp_exe (sample_fs ["/opt/app/yt-dlp"] [("yt-dlp", "/usr/bin/yt-dlp")])
  = Some "/opt/app/yt-dlp".
Proof.
  apply (proj1 (proj2 (bundled_exe_before_path
           (sample_fs ["/opt/app/yt-dlp"] [("yt-dlp", "/usr/bin/yt-dlp")]))));
    reflexivity.
Defined.

(** X2. [_locate_ffmpeg] returns a folder, not the executable, and looks
    in three places in a fixed order: the bundle folder when ffmpeg is in
    it; otherwise the first folder walked under the bundle's [ffmpeg]
    subfolder that holds ffmpeg; and only when the bundle folder and every
    walked folder lack it, the folder of what the search path gives, or
    nothing.  A folder it returns holds a usable ffmpeg or is the folder of
    the search-path hit. *)
Theorem ffmpeg_directory_holds_ffmpeg os :
  let sub := path_join os (bundle_dir os) "ffmpeg" in
  let walked := if isdir os sub then walk os sub else [] in
  (has_ffmpeg os (bundle_dir os) = true → _locate_ffmpeg os = Some (bundle_dir os))
  ∧ (has_ffmpeg os (bundle_dir os) = false →
     ∀ before root rest,
       walked = before ++ root :: rest →
       Forall (λ r, has_ffmpeg os r = false) before →
       has_ffmpeg os root = true →
       _locate_ffmpeg os = Some root)
  ∧ (has_ffmpeg os (bundle_dir os) = false →
     Forall (λ r, has_ffmpeg os r = false) walked →
     _locate_ffmpeg os
     = Str.if_set (which os "ffmpeg") (λ w, Some (dirname os w)) None)
  ∧ (∀ d, _locate_ffmpeg os = Some d →
       has_ffmpeg os d = true
       ∨ ∃ w, which os "ffmpeg" = Some w ∧ Str.truthy w = true ∧ d = dirname os w)
  ∧ (_locate_ffmpeg os = None →
       has_ffmpeg os (bundle_dir os) = false
       ∧ Forall (λ r, has_ffmpeg os r = false) walked
       ∧ Str.if_set (which os "ffmpeg") (λ _, true) false = false).
Proof.
  intros sub walked.
  assert (Hloc : _locate_ffmpeg os =
            if has_ffmpeg os (bundle_dir os) then Some (bundle_dir os)
            else match List.find (has_ffmpeg os) walked with
                 | Some root => Some root
                 | None => Str.if_set (which os "ffmpeg") (λ w, Some (dirname os w)) None
                 end).
  { rewrite LocatorFacts.locate_ffmpeg_eq. fold sub. subst walked.
    destruct (isdir os sub); reflexivity. }
  rewrite Hloc. clear Hloc.
  destruct (has_ffmpeg os (bundle_dir os)) eqn:Hb.
  { repeat split; intros; simplify_eq; auto; congruence. }
  split; [discriminate|]. split; [|split].
  - intros _ before root rest Hw Hbefore Hroot.
    rewrite (LocatorFacts.find_first _ _ _ _ _ Hw Hbefore Hroot). reflexivity.
  - intros _ Hnone. now rewrite (LocatorFacts.find_none_all _ _ Hnone).
  - destruct (List.find (has_ffmpeg os) walked) as [root|] eqn:Hf.
    + apply find_some in Hf as [_ Hr].
      repeat split; intros; simplify_eq; auto; congruence.
    + assert (HF : Forall (λ root, has_ffmpeg os root = false) walked).
      { apply Forall_forall. intros r Hr%list_elem_of_In.
        eapply find_none in Hf; eauto. }
      unfold Str.if_set.
      destruct (which os "ffmpeg") as [w|]; [destruct (Str.truthy w) eqn:Ht|];
        repeat split; intros; simplify_eq; eauto 6; congruence.
Qed.

Lemma ffmpeg_directory_holds_ffmpeg_witness :
  let os := sample_fs ["/opt/app/ffmpeg/bin/ffmpeg"; "/usr/bin/ffmpeg"]
              [("ffmpeg", "/usr/bin/ffmpeg")] in
  _locate_ffmpeg os = Some "/opt/app/ffmpeg/bin"
  ∧ _locate_ffmpeg (sample_fs ["/usr/bin/ffmpeg"] [("ffmpeg", "/usr/bin/ffmpeg")])
    = Some "/usr/bin".
Proof.
  intros os. split.
  - apply (proj1 (proj2 (ffmpeg_directory_holds_ffmpeg os)) eq_refl
             ["/opt/app/ffmpeg"] "/opt/app/ffmpeg/bin" []); [reflexivity | | reflexivity].
    constructor; [reflexivity | constructor].
  - apply (proj1 (proj2 (proj2 (ffmpeg_directory_holds_ffmpeg
                    (sample_fs ["/usr/bin/ffmpeg"] [("ffmpeg", "/usr/bin/ffmpeg")]))))
             eq_refl).
    repeat constructor.
Defined.

(** ** The metadata fetch *)

Module InfoFacts.

Lemma thread_callbacks os tools url :
  _get_video_info_thread os tools url
  = [UpdateVideoInfo (info_message (result_bind (fetch_info os tools url) format_info));
     EnableInfoButton; ResetStatus].
Proof.
  unfold _get_video_info_thread. destruct (result_bind _ _); reflexivity.
Qed.

Lemma seconds_table : forall_from 0 60 seconds_two_wide = true.
Proof. vm_compute. reflexivity. Qed.

Lemma dict_get_insert_ne d k k' v dflt :
  k ≠ k' → dict_get (<[k:=v]> d) k' dflt = dict_get d k' dflt.
Proof. intros H. unfold dict_get. now rewrite lookup_insert_ne. Qed.

Lemma fetch_info_fallback os tools url :
  (∀ exe, _find_yt_dlp_exe os = Some exe → Str.truthy exe = true →
          _run_yt_dlp_info tools exe url = Ok InfoNone
          ∨ ∃ e, _run_yt_dlp_info tools exe url = Raise e) →
  fetch_info os tools url = package_info tools url.
Proof.
  intros H. unfold fetch_info, package_info, Str.if_set.
  destruct (_find_yt_dlp_exe os) as [exe|]; [|reflexivity].
  destruct (Str.truthy exe) eqn:Et; [|reflexivity].
  destruct (H exe eq_refl Et) as [-> | [e ->]]; reflexivity.
Qed.

End InfoFacts.

(** X3. [_run_yt_dlp_info]: with exit code 0 the result is what
    [json.loads] makes of the standard output, whatever the error output;
    with another exit code it raises a message that is never empty, the
    stripped error output or, when that is blank, ["yt-dlp failed"]; a
    failure to run the process (the timeout among them) is passed on. *)

Theorem info_runner_reports_stderr tools exe url :
  (∀ proc, subprocess_run tools [exe; "-j"; url] = Ok proc →
     (cp_returncode proc = 0 →
      _run_yt_dlp_info tools exe url = json_loads tools (cp_stdout proc))
     ∧ (cp_returncode proc ≠ 0 →
        ∃ msg, _run_yt_dlp_info tools exe url = Raise msg
               ∧ msg ≠ ""
               ∧ (msg = Str.strip (cp_stderr proc)
                  ∨ msg = "yt-dlp failed" ∧ Str.strip (cp_stderr proc) = "")))
  ∧ (∀ e, subprocess_run tools [exe; "-j"; url] = Raise e →
          _run_yt_dlp_info tools exe url = Raise e).
Proof.
  split.
  - intros proc Hrun. unfold _run_yt_dlp_info. rewrite Hrun. cbn [result_bind].
    split; intros Hrc.
    + rewrite Hrc. reflexivity.
    + destruct (Z.eqb_spec (cp_returncode proc) 0); [contradiction|]. cbn [negb].
      destruct (Str.strip (cp_stderr proc)) as [|c s] eqn:Es; cbn [Str.truthy].
      * eexists. split; [reflexivity|]. split; [discriminate | right; auto].
      * eexists. split; [reflexivity|]. split; [discriminate | left; auto].
  - intros e Hrun. unfold _run_yt_dlp_info. now rewrite Hrun.
Qed.

Lemma info_runner_reports_stderr_witness :
  let tools := MetadataTools (λ _, Ok (Completed 1 "" "  ERROR: Video unavailable  "))
                 (λ _, Ok InfoNone) None in
  ∃ msg, _run_yt_dlp_info tools "yt-dlp" "u" = Raise msg
         ∧ msg ≠ ""
         ∧ (msg = Str.strip "  ERROR: Video unavailable  "
            ∨ msg = "yt-dlp failed" ∧ Str.strip "  ERROR: Video unavailable  " = "").
Proof.
  intros tools.
  apply (proj1 (info_runner_reports_stderr tools "yt-dlp" "u")
           (Completed 1 "" "  ERROR: Video unavailable  ") eq_refl).
  discriminate.
Defined.

(** X4. When the executable is found but fails (a non-zero exit, a
    process that does not run, output that is no JSON or is [null]), its
    error is dropped: [info] comes from the Python package alone, and
    without the package the text shown is the import error, not the
    tool's message. *)

Theorem info_tool_failure_hidden os tools url :
  (∀ exe, _find_yt_dlp_exe os = Some exe →
     (∃ proc, subprocess_run tools [exe; "-j"; url] = Ok proc
              ∧ cp_returncode proc ≠ 0)
     ∨ (∃ e, subprocess_run tools [exe; "-j"; url] = Raise e)
     ∨ (∃ proc, subprocess_run tools [exe; "-j"; url] = Ok proc
                ∧ cp_returncode proc = 0
                ∧ ((∃ e, json_loads tools (cp_stdout proc) = Raise e)
                   ∨ json_loads tools (cp_stdout proc) = Ok InfoNone))) →
  fetch_info os tools url = package_info tools url
  ∧ (extract_info tools = None →
     _get_video_info_thread os tools url
     = [UpdateVideoInfo "Error getting video information: No module named 'yt_dlp'";
        EnableInfoButton; ResetStatus]).
Proof.
  intros H.
  assert (Hf : fetch_info os tools url = package_info tools url).
  { apply InfoFacts.fetch_info_fallback. intros exe He _.
    unfold _run_yt_dlp_info.
    destruct (H exe He) as [(proc & -> & Hrc) | [(e & ->) | (proc & -> & Hrc & Hj)]];
      cbn [result_bind].
    - destruct (Z.eqb_spec (cp_returncode proc) 0); [contradiction|].
      cbn [negb]. right. eauto.
    - right. eauto.
    - rewrite Hrc. cbn. destruct Hj as [[e ->] | ->]; eauto. }
  split; [exact Hf|].
  intros Hnone. rewrite InfoFacts.thread_callbacks, Hf.
  unfold package_info. rewrite Hnone. reflexivity.
Qed.

Lemma info_tool_failure_hidden_witness :
  let tools := MetadataTools (λ _, Ok (Completed 1 "" "ERROR: Video unavailable"))
                 (λ _, Ok InfoNone) None in
  _get_video_info_thread (tool_installed (Process [] 0)) tools "u"
  = [UpdateVideoInfo "Error getting video information: No module named 'yt_dlp'";
     EnableInfoButton; ResetStatus].
Proof.
  intros tools.
  apply (info_tool_failure_hidden (tool_installed (Process [] 0)) tools "u");
    [|reflexivity].
  intros exe _. left. exists (Completed 1 "" "ERROR: Video unavailable").
  split; [reflexivity | discriminate].
Defined.

(** X5. A duration other than 0 is shown as minutes and seconds of
    [divmod(duration, 60)]: the seconds lie in [0, 60) and always take two
    characters; the minutes are not reduced, so there is no hours field. *)

Theorem duration_minutes_and_seconds d :
  d ≠ 0 →
  ∃ m s, duration_str (JInt d) = Ok (pad2 m +:+ ":" +:+ pad2 s)
         ∧ d = 60 * m + s ∧ 0 ≤ s < 60
         ∧ String.length (pad2 s) = 2%nat
         ∧ (0 < d → 0 ≤ m).
Proof.
  intros Hd. exists (d / 60), (d mod 60).
  pose proof (Z.mod_pos_bound d 60 ltac:(lia)) as Hs.
  split; [|split; [|split; [|split]]].
  - unfold duration_str. cbn [jtruthy].
    destruct (Z.eqb_spec d 0); [contradiction | reflexivity].
  - apply Z.div_mod. lia.
  - exact Hs.
  - apply Nat.eqb_eq.
    apply (ParserFacts.forall_from_spec _ _ 0 InfoFacts.seconds_table). lia.
  - intros Hpos. apply Z.div_pos; lia.
Qed.

Lemma duration_minutes_and_seconds_witness :
  ∃ m s, duration_str (JInt 7325) = Ok (pad2 m +:+ ":" +:+ pad2 s)
         ∧ 7325 = 60 * m + s ∧ 0 ≤ s < 60
         ∧ String.length (pad2 s) = 2%nat
         ∧ (0 < 7325 → 0 ≤ m).
Proof. apply duration_minutes_and_seconds. lia. Defined.

(** X6. The summary depends on four keys only: adding any other key
    leaves it unchanged.  A duration or view count that is missing, [None]
    or 0 is shown the same way, and a missing title or uploader is shown
    as ["Unknown"]. *)

Theorem summary_reads_four_keys d :
  (∀ k v, k ∉ ["title"; "uploader"; "duration"; "view_count"] →
          format_info (InfoDict (<[k:=v]> d)) = format_info (InfoDict d))
  ∧ format_info (InfoDict (<["duration":=JNone]> d))
    = format_info (InfoDict (<["duration":=JInt 0]> d))
  ∧ format_info (InfoDict (delete "duration" d))
    = format_info (InfoDict (<["duration":=JInt 0]> d))
  ∧ format_info (InfoDict (<["view_count":=JNone]> d))
    = format_info (InfoDict (<["view_count":=JInt 0]> d))
  ∧ format_info (InfoDict (delete "view_count" d))
    = format_info (InfoDict (<["view_count":=JInt 0]> d))
  ∧ format_info (InfoDict (delete "title" d))
    = format_info (InfoDict (<["title":=JStr "Unknown"]> d))
  ∧ format_info (InfoDict (delete "uploader" d))
    = format_info (InfoDict (<["uploader":=JStr "Unknown"]> d)).
Proof.
  split.
  - intros k v Hk. unfold format_info.
    rewrite !InfoFacts.dict_get_insert_ne; [reflexivity|..];
      intros ->; apply Hk; set_solver.
  - unfold format_info, dict_get.
    repeat split; simplify_map_eq; reflexivity.
Qed.

Lemma summary_reads_four_keys_witness :
  format_info (InfoDict (<["like_count":=JStr "many"]> (∅ : gmap string jval)))
  = format_info (InfoDict ∅).
Proof.
  apply (proj1 (summary_reads_four_keys ∅) "like_count" (JStr "many")).
  intros H. repeat (apply elem_of_cons in H as [H|H]; [discriminate H|]).
  inversion H.
Defined.

(** X7. A metadata request with an acceptable URL disables the information
    button, shows ["Getting video information..."] and starts one worker
    on the stripped URL.  Whatever the worker meets, once the foreground
    has run its three callbacks the button is enabled again, the status
    reads ["Ready to download"], and the panel shows the summary or
    ["Error getting video information: ..."]; the download flag, the
    progress bar, the download button, the dialogs and the download
    workers are as they were. *)

Theorem info_button_always_restored os tools self view :
  let url := Str.strip (url_var self) in
  Str.truthy url = true → is_valid_youtube_url url = true →
  let started := get_video_info self view in
  let done := run_info_callbacks started (_get_video_info_thread os tools url) in
  (info_button started.2 = "disabled"
   ∧ status_label started.1 = "Getting video information..."
   ∧ info_threads started.2 = info_threads view ++ [url])
  ∧ (info_button done.2 = "normal"
     ∧ status_label done.1 = "Ready to download"
     ∧ info_text done.2
       = info_message (result_bind (fetch_info os tools url) format_info))
  ∧ (is_downloading done.1 = is_downloading self
     ∧ progress_var done.1 = progress_var self
     ∧ download_button done.1 = download_button self
     ∧ dialogs done.1 = dialogs self
     ∧ threads done.1 = threads self).
Proof.
  intros url Ht Hv started done. subst started done.
  rewrite InfoFacts.thread_callbacks. unfold get_video_info. fold url.
  rewrite Ht, Hv. cbn. auto 12.
Qed.

Lemma info_button_always_restored_witness :
  let self := fresh_app " https://youtu.be/dQw4w9WgXcQ " "best" "mp4" in
  let tools := MetadataTools (λ _, Raise "timed out") (λ _, Ok InfoNone) None in
  let done := run_info_callbacks (get_video_info self (InfoView "" "normal" []))
                (_get_video_info_thread (tool_installed (Process [] 0)) tools
                   "https://youtu.be/dQw4w9WgXcQ") in
  info_button done.2 = "normal"
  ∧ info_text done.2 = "Error getting video information: No module named 'yt_dlp'".
Proof.
  intros self tools done.
  pose proof (info_button_always_restored (tool_installed (Process [] 0)) tools self
                (InfoView "" "normal" []) eq_refl eq_refl) as (_ & (H1 & _ & H3) & _).
  split; [exact H1 | exact H3].
Defined.
(** ** The guards and the validator *)

Module GuardFacts.
Import Str StrFacts.

Lemma lstrip_spaces s : all isspace s = true → lstrip s = "".
Proof.
  induction s as [|c s IH]; [reflexivity|]. cbn [all lstrip].
  intros [Hc Hs]%andb_true_iff. rewrite Hc. auto.
Qed.

Lemma strip_spaces s : all isspace s = true → strip s = "".
Proof. intros H. unfold strip. now rewrite lstrip_spaces. Qed.

Lemma url_head_first pre :
  url_head pre →
  ∃ c rest, pre = String c rest ∧ Str.mem c "hwy" = true ∧ (9 ≤ String.length pre)%nat.
Proof.
  intros (scheme & www & host & tld & -> & Hs & Hw & Hh & Ht).
  simpl in Hs, Hw, Hh, Ht.
  destruct Hs as [<-|[<-|[<-|[]]]]; destruct Hw as [<-|[<-|[]]];
    destruct Hh as [<-|[<-|[<-|[]]]]; destruct Ht as [<-|[<-|[]]];
    eexists _, _; (split; [reflexivity|]); split; try reflexivity; simpl; lia.
Qed.

Lemma replace_no_old old s : mem old (replace old "" s) = false.
Proof.
  induction s as [|c s IH]; [reflexivity|]. cbn [replace].
  destruct (Ascii.eqb_spec c old) as [->|Hne]; [exact IH|].
  cbn [mem]. rewrite IH, orb_false_r. apply Ascii.eqb_neq. congruence.
Qed.

Lemma replace_absent old new s : mem old s = false → replace old new s = s.
Proof.
  induction s as [|c s IH]; [reflexivity|]. cbn [mem replace].
  intros [Hc Hs]%orb_false_iff. rewrite Ascii.eqb_sym, Hc, (IH Hs). reflexivity.
Qed.

End GuardFacts.

(** X8. [get_video_info] and [start_download] check the URL the same
    way: for a URL that is empty after stripping or not accepted by the
    validator both only show the same dialog and start nothing.  A URL of
    white space only is treated as an empty one. *)

Theorem info_and_download_share_url_guards os self view :
  (Str.truthy (Str.strip (url_var self))
   && is_valid_youtube_url (Str.strip (url_var self)) = false →
   get_video_info self view = (start_download os self, view)
   ∧ threads (start_download os self) = threads self
   ∧ ∃ d, start_download os self = messagebox d self)
  ∧ (Str.all Str.isspace (url_var self) = true →
     start_download os self
     = messagebox (ShowWarning "Warning" "Please enter a YouTube URL") self).
Proof.
  split.
  - unfold get_video_info, start_download.
    destruct (Str.truthy _); cbn [negb andb]; [|eauto 6].
    destruct (is_valid_youtube_url _); cbn [negb andb]; [discriminate | eauto 6].
  - intros H. unfold start_download. rewrite (GuardFacts.strip_spaces _ H). reflexivity.
Qed.

Lemma info_and_download_share_url_guards_witness :
  let os := tool_installed (Process [] 0) in
  let self := fresh_app "https://example.com/watch?v=dQw4w9WgXcQ" "best" "mp4" in
  get_video_info self (InfoView "" "normal" []) = (start_download os self, InfoView "" "normal" [])
  ∧ start_download os (fresh_app "   " "best" "mp4")
    = messagebox (ShowWarning "Warning" "Please enter a YouTube URL")
        (fresh_app "   " "best" "mp4").
Proof.
  intros os self. split.
  - exact (proj1 (proj1 (info_and_download_share_url_guards os self (InfoView "" "normal" []))
                    eq_refl)).
  - exact (proj2 (info_and_download_share_url_guards os (fresh_app "   " "best" "mp4")
                    (InfoView "" "normal" [])) eq_refl).
Defined.

(** X9. An accepted URL starts with [h], [w] or [y], so never with a dash
    or with white space, and has at least 20 characters. *)

Theorem valid_url_starts_with_letter url :
  is_valid_youtube_url url = true →
  ∃ c rest, url = String c rest ∧ Str.mem c "hwy" = true
            ∧ (20 ≤ String.length url)%nat.
Proof.
  intros (pre & form & tok & rest & -> & Hpre & _ & Htok)%UrlFacts.is_valid_youtube_url_iff.
  destruct (GuardFacts.url_head_first pre Hpre) as (c & r & -> & Hc & Hl).
  exists c, (r +:+ form +:+ tok +:+ rest). split; [reflexivity|]. split; [exact Hc|].
  unfold id_token in Htok. apply andb_true_iff in Htok as [Hn%Nat.eqb_eq _].
  rewrite !StrFacts.length_app. lia.
Qed.

Lemma valid_url_starts_with_letter_witness :
  ∃ c rest, "youtu.be/dQw4w9WgXcQ" = String c rest ∧ Str.mem c "hwy" = true
            ∧ (20 ≤ String.length "youtu.be/dQw4w9WgXcQ")%nat.
Proof. apply valid_url_starts_with_letter. reflexivity. Defined.

(** X10. Every string built as scheme, [www.], host, top-level domain,
    a slash, positional form and eleven identifier characters is accepted,
    with anything after it. *)

Theorem recognized_urls_accepted scheme www host tld form tok rest :
  In scheme [""; "http://"; "https://"] →
  In www [""; "www."] →
  In host ["youtube"; "youtu"; "youtube-nocookie"] →
  In tld ["com"; "be"] →
  In form [""; "watch?v="; "embed/"; "v/"] →
  id_token tok = true →
  is_valid_youtube_url
    (scheme +:+ www +:+ host +:+ "." +:+ tld +:+ "/" +:+ form +:+ tok +:+ rest) = true.
Proof.
  intros Hs Hw Hh Ht Hf Htok. apply UrlFacts.is_valid_youtube_url_iff.
  exists (scheme +:+ www +:+ host +:+ "." +:+ tld +:+ "/"), form, tok, rest.
  split; [now rewrite !StrFacts.app_assoc|]. split; [|split; [|exact Htok]].
  - exists scheme, www, host, tld. auto.
  - unfold positional_form. simpl in Hf. intuition.
Qed.

Lemma recognized_urls_accepted_witness :
  is_valid_youtube_url
    ("https://" +:+ "www." +:+ "youtube" +:+ "." +:+ "com" +:+ "/" +:+ "watch?v="
     +:+ "dQw4w9WgXcQ" +:+ "&t=42s") = true.
Proof.
  apply recognized_urls_accepted; simpl; auto 6.
Defined.

(** X11. For a quality other than ["best"] and ["worst"] the height put in
    the expression is the quality with every [p] removed, not only a
    trailing one; a quality without [p] is used as it is. *)

Theorem format_height_drops_every_p quality format_ext :
  quality ≠ "best" → quality ≠ "worst" →
  let height := Str.replace "p" "" quality in
  _get_format_string quality format_ext
  = "best[height<=" +:+ height +:+ "][ext=" +:+ format_ext
    +:+ "]/best[height<=" +:+ height +:+ "]/best"
  ∧ Str.mem "p" height = false
  ∧ (Str.mem "p" quality = false → height = quality).
Proof.
  intros Hb Hw height. unfold _get_format_string.
  apply String.eqb_neq in Hb, Hw. rewrite Hb, Hw.
  split; [reflexivity|]. split.
  - apply GuardFacts.replace_no_old.
  - apply GuardFacts.replace_absent.
Qed.

Lemma format_height_drops_every_p_witness :
  _get_format_string "p1080p" "mp4"
  = "best[height<=" +:+ "1080" +:+ "][ext=" +:+ "mp4"
    +:+ "]/best[height<=" +:+ "1080" +:+ "]/best".
Proof.
  exact (proj1 (format_height_drops_every_p "p1080p" "mp4"
                  ltac:(discriminate) ltac:(discriminate))).
Defined.
(** ** The download worker *)

(** X12. For a container other than mp3 and m4a the expression of
    [_get_format_string] reaches the tool unchanged: after [-f] on the
    executable path, where the ffmpeg folder is passed both before and
    after the URL, and under [format] on the Python-package path, which
    then has no [postprocessors] entry. *)

Theorem video_format_keeps_expression os self url :
  is_audio_format (format_var self) = false →
  let expr := _get_format_string (quality_var self) (format_var self) in
  (∀ exe, exe_found os = Some exe →
     invoked (run_worker os self url)
     = [Popen ([exe; "-f"; expr; "-o"; worker_outtmpl os self]
               ++ ffmpeg_args (_locate_ffmpeg os)
               ++ ["--newline"; url]
               ++ ffmpeg_args (_locate_ffmpeg os))])
  ∧ worker_opts os self !! "format" = Some (VStr expr)
  ∧ worker_opts os self !! "postprocessors" = None.
Proof.
  intros Hv expr. split; [|split].
  - intros exe Hexe. rewrite (WorkerFacts.worker_with_exe os self url exe Hexe).
    unfold worker_cmd. rewrite Hv. destruct (popen os _); reflexivity.
  - unfold worker_opts, build_ydl_opts. rewrite Hv.
    unfold Str.if_set. destruct (_locate_ffmpeg os) as [d|]; [destruct (Str.truthy d)|];
      by simplify_map_eq.
  - unfold worker_opts, build_ydl_opts. rewrite Hv.
    unfold Str.if_set. destruct (_locate_ffmpeg os) as [d|]; [destruct (Str.truthy d)|];
      by simplify_map_eq.
Qed.

Lemma video_format_keeps_expression_witness :
  let url := "https://youtu.be/dQw4w9WgXcQ" in
  invoked (run_worker (tool_installed (Process [] 0)) (fresh_app url "480p" "webm") url)
  = [Popen ["/usr/bin/yt-dlp"; "-f"; "best[height<=480][ext=webm]/best[height<=480]/best";
            "-o"; "/home/u/Downloads/%(title)s.%(ext)s";
            "--ffmpeg-location"; "/usr/bin"; "--newline"; url;
            "--ffmpeg-location"; "/usr/bin"]].
Proof.
  intros url.
  exact (proj1 (video_format_keeps_expression (tool_installed (Process [] 0))
                  (fresh_app url "480p" "webm") url eq_refl)
           "/usr/bin/yt-dlp" eq_refl).
Defined.

(** X13. The option dictionary for the Python package has the keys
    [format], [outtmpl] and [progress_hooks], [ffmpeg_location] exactly
    when an ffmpeg folder was found, and [postprocessors] exactly for mp3
    and m4a; the output template and the hook are stored as given. *)

Theorem ydl_opts_keys format_string outtmpl format_ext ffmpeg_dir :
  let opts := build_ydl_opts format_string outtmpl format_ext ffmpeg_dir in
  dom opts
  = {["format"; "outtmpl"; "progress_hooks"]}
    ∪ (if Str.if_set ffmpeg_dir (λ _, true) false then {["ffmpeg_location"]} else ∅)
    ∪ (if is_audio_format format_ext then {["postprocessors"]} else ∅)
  ∧ opts !! "outtmpl" = Some (VStr outtmpl)
  ∧ opts !! "progress_hooks" = Some (VList [VHook])
  ∧ opts !! "ffmpeg_location"
    = Str.if_set ffmpeg_dir (λ d, Some (VStr d)) None.
Proof.
  intros opts. subst opts. unfold build_ydl_opts, Str.if_set.
  destruct ffmpeg_dir as [d|]; [destruct (Str.truthy d)|];
    destruct (is_audio_format format_ext);
    (split; [rewrite ?dom_insert_L, dom_empty_L; set_solver | by simplify_map_eq]).
Qed.

(** X14. A request that passed the guards ends, once the foreground has
    run what the worker posted, with the progress bar at 100 and one
    success dialog added, or with the bar at 0 and one error dialog
    ["Download failed: ..."] added; progress events add no dialog. *)

Theorem download_end_state os self :
  guards_pass os self = true →
  let started := start_download os self in
  let final := mainloop (posted (run_worker os started (Str.strip (url_var self)))) started in
  (progress_var final = PyInt 100
   ∧ dialogs final
     = dialogs self ++ [ShowInfo "Success" "Download completed successfully!"])
  ∨ (progress_var final = PyInt 0
     ∧ ∃ e, dialogs final
            = dialogs self ++ [ShowError "Error" ("Download failed: " +:+ e)]).
Proof.
  intros Hg started final. subst final.
  assert (Hd : dialogs started = dialogs self).
  { subst started. now rewrite (WorkerFacts.start_download_spawns os self Hg). }
  destruct (WorkerFacts.worker_posts os started (Str.strip (url_var self)))
    as (progress & outcome & -> & Hp).
  assert (Hkeep : ∀ a, dialogs (mainloop progress a) = dialogs a).
  { clear -Hp. induction progress as [|cb q IH]; intros a; [reflexivity|].
    cbn [forallb] in Hp. apply andb_true_iff in Hp as [Hc Hq].
    unfold mainloop in *. cbn [fold_left]. rewrite (IH Hq).
    destruct cb as [p s|ok msg]; [|discriminate]. cbn [run_callback].
    unfold _update_progress. destruct (ge0 p); reflexivity. }
  destruct outcome as [[]|e]; cbn [completion]; rewrite WorkerFacts.mainloop_completion.
  - left. unfold _download_complete.
    cbn [progress_var dialogs set_status_label set_progress_var messagebox
         set_download_button set_is_downloading].
    now rewrite Hkeep, Hd.
  - right. unfold _download_complete.
    cbn [progress_var dialogs set_status_label set_progress_var messagebox
         set_download_button set_is_downloading].
    split; [reflexivity|]. exists e. now rewrite Hkeep, Hd.
Qed.

Lemma download_end_state_witness :
  let os := tool_installed (Process ["[download] 100% of 3.1MiB"] 0) in
  let self := fresh_app "https://youtu.be/dQw4w9WgXcQ" "best" "mp4" in
  progress_var (mainloop (posted (run_worker os (start_download os self)
                                    (Str.strip (url_var self))))
                         (start_download os self)) = PyInt 100.
Proof.
  intros os self.
  destruct (download_end_state os self eq_refl) as [[H _] | [H _]];
    [exact H | vm_compute in H; discriminate H].
Defined.
(** ** The progress hook and the window *)

Module HookFacts.
Import Float FloatFacts.

Lemma round_half_even_le n d K :
  0 < d → n ≤ K * d → round_half_even n d ≤ K.
Proof.
  intros Hd Hn. pose proof (round_half_even_spec n d Hd) as H.
  set (m := round_half_even n d) in *.
  destruct (Z.le_gt_cases m K) as [|Hgt]; [assumption|exfalso].
  assert (K * d + d ≤ m * d) by nia. lia.
Qed.

Lemma num_nonneg x : 0 ≤ mant x → 0 ≤ num x.
Proof.
  intros H. unfold num. destruct (0 <=? expo x); [|exact H].
  apply Z.mul_nonneg_nonneg; [exact H | apply Z.pow_nonneg; lia].
Qed.

Lemma round_pos_le n d K :
  0 < n → 0 < d → 1 ≤ K < 2 ^ 51 → n ≤ K * d →
  ∃ x, round_pos n d = Some x ∧ between_0_and K x.
Proof.
  intros Hn Hd HK Hle. unfold round_pos, between_0_and.
  set (e0 := Z.log2 n - Z.log2 d - 53).
  set (e1 := if _ <? 2 ^ 53 then e0 else e0 + 1).
  assert (He1 : e1 ≤ e0 + 1) by (subst e1; destruct (_ <? _); lia).
  assert (He0 : e0 ≤ -2).
  { pose proof (Z.log2_le_mono n (K * d) Hle).
    pose proof (Z.log2_mul_above K d ltac:(lia) ltac:(lia)).
    assert (Z.log2 K < 51) by (apply Z.log2_lt_pow2; lia).
    subst e0. lia. }
  set (e := Z.max e1 (-1074)).
  assert (He : e ≤ -1) by lia.
  assert (Hs : scaled n d e = (n * 2 ^ (- e), d)).
  { unfold scaled. destruct (Z.leb_spec 0 e); [lia | reflexivity]. }
  rewrite Hs. cbn [fst snd].
  set (k := - e). set (M := round_half_even (n * 2 ^ k) d).
  assert (Hk : 0 < k) by lia.
  assert (HP : 0 < 2 ^ k) by (apply Z.pow_pos_nonneg; lia).
  assert (HM0 : 0 ≤ M) by (apply round_half_even_nonneg; nia).
  assert (HMK : M ≤ K * 2 ^ k).
  { apply round_half_even_le; [exact Hd | nia]. }
  assert (HP2 : 2 ^ k = 2 * 2 ^ (k - 1)).
  { rewrite <- Z.pow_succ_r by lia. f_equal. lia. }
  assert (HP1 : 0 < 2 ^ (k - 1)) by (apply Z.pow_pos_nonneg; lia).
  destruct (Z.eqb_spec M (2 ^ 53)) as [HM53|HM53].
  - exists (B64 (2 ^ 52) (e + 1)). cbn [mant expo].
    destruct (Z.ltb_spec 971 (e + 1)); [lia|].
    change (2 ^ 52 =? 0) with false. cbv iota.
    split; [reflexivity|]. split; [lia|].
    unfold num, den. cbn [mant expo].
    change (2 ^ 53) with (2 * 2 ^ 52) in HM53.
    destruct (Z.leb_spec 0 (e + 1)).
    + assert (k = 1) as Hk1 by lia. rewrite Hk1 in HMK.
      change (2 ^ 1) with 2 in HMK. change (2 ^ 51) with (2251799813685248) in HK.
      change (2 ^ 52) with 4503599627370496 in *. lia.
    + replace (- (e + 1)) with (k - 1) by lia.
      split; [exact HP1|]. split; [lia|]. nia.
  - cbn [mant expo]. destruct (Z.ltb_spec 971 e); [lia|].
    destruct (Z.eqb_spec M 0) as [HMz|HMz].
    + exists (B64 0 0). split; [reflexivity|].
      unfold num, den. cbn [mant expo]. change (0 <=? 0) with true. cbv iota. lia.
    + exists (B64 M e). split; [reflexivity|].
      unfold num, den. cbn [mant expo].
      destruct (Z.leb_spec 0 e); [lia|]. fold k. lia.
Qed.

Lemma round_le n d K :
  0 ≤ n → 0 < d → 1 ≤ K < 2 ^ 51 → n ≤ K * d →
  ∃ x, round n d = Some x ∧ between_0_and K x.
Proof.
  intros Hn Hd HK Hle. unfold round. destruct n as [|p|p]; [| |lia].
  - exists (B64 0 0). split; [reflexivity|]. unfold between_0_and.
    cbn. lia.
  - apply round_pos_le; auto. lia.
Qed.

Lemma percent_of_bounded downloaded total :
  0 ≤ downloaded ≤ total → 0 < total →
  ∃ p, percent_of (HInt downloaded) (HInt total) = Ok (Finite p)
       ∧ between_0_and 100 p
       ∧ 0 ≤ tenths p ≤ 1000.
Proof.
  intros Hdl Ht. unfold percent_of, true_divide.
  destruct (Z.eqb_spec total 0); [lia|].
  rewrite Z.sgn_pos, Z.abs_eq, Z.mul_1_r by lia.
  destruct (round_le downloaded total 1 ltac:(lia) Ht ltac:(lia) ltac:(lia))
    as (q & -> & Hq0 & Hqd & Hq).
  cbn [result_bind]. unfold times_100.
  destruct (round_le (num q * 100) (den q) 100 ltac:(lia) Hqd ltac:(lia) ltac:(lia))
    as (p & -> & Hp).
  exists p. split; [reflexivity|]. split; [exact Hp|].
  destruct Hp as (Hp0 & Hpd & Hp). unfold tenths.
  rewrite Z.abs_eq by lia. split.
  - apply round_half_even_nonneg; lia.
  - apply round_half_even_le; lia.
Qed.

End HookFacts.

(** X15. While downloading, with [int] byte counts
    [0 <= downloaded <= total] and [total > 0], the hook posts one update
    whose percentage is a finite double between 0 and 100 and whose text
    shows it between 0.0 and 100.0, from [total_bytes] when that key is
    present and otherwise from [total_bytes_estimate], then marked
    ["(estimated)"]. *)

Theorem hook_percent_within_bounds basename d downloaded total :
  d !! "status" = Some (HStr "downloading") →
  d !! "downloaded_bytes" = Some (HInt downloaded) →
  0 ≤ downloaded ≤ total → 0 < total →
  (d !! "total_bytes" = Some (HInt total) →
   ∃ p, _progress_hook basename d
        = Ok [(HookFloat (Finite p),
               "Downloading... " +:+ Float.format_1f p +:+ "%")]
        ∧ between_0_and 100 p ∧ 0 ≤ Float.tenths p ≤ 1000)
  ∧ (d !! "total_bytes" = None →
     d !! "total_bytes_estimate" = Some (HInt total) →
     ∃ p, _progress_hook basename d
          = Ok [(HookFloat (Finite p),
                 "Downloading... " +:+ Float.format_1f p +:+ "% (estimated)")]
          ∧ between_0_and 100 p ∧ 0 ≤ Float.tenths p ≤ 1000).
Proof.
  intros Hs Hdl Hr Ht.
  destruct (HookFacts.percent_of_bounded downloaded total Hr Ht) as (p & Hp & Hb & Ht10).
  split.
  - intros Htot. exists p. split; [|auto].
    unfold _progress_hook, getitem. rewrite Hs, Hdl, Htot. cbn [result_bind].
    rewrite Hp. reflexivity.
  - intros Hnone Hest. exists p. split; [|auto].
    unfold _progress_hook, getitem. rewrite Hs, Hdl, Hnone, Hest. cbn [result_bind].
    rewrite Hp. reflexivity.
Qed.

Lemma hook_percent_within_bounds_witness :
  let d : gmap string hval :=
    <["status":=HStr "downloading"]>
      (<["downloaded_bytes":=HInt 1]> (<["total_bytes":=HInt 3]> ∅)) in
  ∃ p, _progress_hook id d
       = Ok [(HookFloat (Finite p), "Downloading... " +:+ Float.format_1f p +:+ "%")]
       ∧ between_0_and 100 p ∧ 0 ≤ Float.tenths p ≤ 1000.
Proof.
  intros d.
  apply (proj1 (hook_percent_within_bounds id d 1 3 eq_refl eq_refl
                  ltac:(lia) ltac:(lia))).
  reflexivity.
Defined.

(** X16. Where the hook raises or stays silent: without a [status] key it
    raises a key error; while downloading, a [total_bytes] key holding
    [None] raises a type error even when an estimate is present, a total
    of 0 raises a division by zero, a missing [downloaded_bytes] raises a
    key error, and with neither total it posts the marker -1; when
    finished it posts 100 with the base name of the file, or raises when
    [filename] is missing; for any other status it posts nothing. *)

Theorem hook_failure_modes basename d :
  (d !! "status" = None → _progress_hook basename d = Raise "'status'")
  ∧ (d !! "status" = Some (HStr "downloading") →
     (∀ downloaded, d !! "downloaded_bytes" = Some (HInt downloaded) →
        (d !! "total_bytes" = Some HNone →
         _progress_hook basename d
         = Raise "unsupported operand type(s) for /: 'int' and 'NoneType'")
        ∧ (d !! "total_bytes" = Some (HInt 0) →
           _progress_hook basename d = Raise "division by zero"))
     ∧ (d !! "downloaded_bytes" = None →
        is_Some (d !! "total_bytes") ∨ is_Some (d !! "total_bytes_estimate") →
        _progress_hook basename d = Raise "'downloaded_bytes'")
     ∧ (d !! "total_bytes" = None → d !! "total_bytes_estimate" = None →
        _progress_hook basename d = Ok [(HookInt (-1), "Downloading...")]))
  ∧ (d !! "status" = Some (HStr "finished") →
     (∀ f, d !! "filename" = Some (HStr f) →
        _progress_hook basename d
        = Ok [(HookInt 100, "Download finished: " +:+ basename f)])
     ∧ (d !! "filename" = None → _progress_hook basename d = Raise "'filename'"))
  ∧ (∀ s, d !! "status" = Some s → s ≠ HStr "downloading" → s ≠ HStr "finished" →
          _progress_hook basename d = Ok []).
Proof.
  unfold _progress_hook, getitem. split; [|split; [|split]].
  - intros ->. reflexivity.
  - intros ->. cbn [result_bind]. split; [|split].
    + intros dl ->. split; intros ->; reflexivity.
    + intros -> [[v ->] | [v Hv]]; [reflexivity|].
      rewrite Hv. destruct (d !! "total_bytes"); reflexivity.
    + intros -> ->. reflexivity.
  - intros ->. cbn [result_bind]. split.
    + intros f ->. reflexivity.
    + intros ->. reflexivity.
  - intros s -> Hd Hf. cbn [result_bind].
    destruct s as [| |t]; [reflexivity | reflexivity |].
    repeat (match goal with
            | |- context [match ?x with _ => _ end] => is_var x; destruct x
            end; try reflexivity).
    all: exfalso; first [apply Hd; reflexivity | apply Hf; reflexivity].
Qed.

Lemma hook_failure_modes_witness :
  let d : gmap string hval :=
    <["status":=HStr "downloading"]>
      (<["downloaded_bytes":=HInt 5]>
         (<["total_bytes":=HNone]> (<["total_bytes_estimate":=HInt 10]> ∅))) in
  _progress_hook id d = Raise "unsupported operand type(s) for /: 'int' and 'NoneType'"
  ∧ _progress_hook id (<["status":=HStr "error"]> (∅ : gmap string hval)) = Ok [].
Proof.
  intros d. split.
  - apply (proj1 (proj1 (proj1 (proj2 (hook_failure_modes id d)) eq_refl) 5 eq_refl)).
    reflexivity.
  - apply (proj2 (proj2 (proj2 (hook_failure_modes id
                                  (<["status":=HStr "error"]> ∅)))) (HStr "error"));
      [reflexivity | discriminate | discriminate].
Defined.

(** X17. [center_window] asks for the window's own size at offsets that
    leave margins differing by at most one pixel on each axis; the offsets
    are not negative when the window fits the screen. *)

Theorem window_centred_within_a_pixel width height screenwidth screenheight :
  let x := center_offset screenwidth width in
  let y := center_offset screenheight height in
  center_window width height screenwidth screenheight
  = pretty width +:+ "x" +:+ pretty height +:+ "+" +:+ pretty x +:+ "+" +:+ pretty y
  ∧ -1 ≤ (screenwidth - width - x) - x ≤ 1
  ∧ -1 ≤ (screenheight - height - y) - y ≤ 1
  ∧ (width ≤ screenwidth → 0 ≤ x)
  ∧ (height ≤ screenheight → 0 ≤ y).
Proof.
  intros x y. subst x y. unfold center_window, center_offset.
  split; [reflexivity|].
  pose proof (Z.div_mod screenwidth 2 ltac:(lia)).
  pose proof (Z.mod_pos_bound screenwidth 2 ltac:(lia)).
  pose proof (Z.div_mod width 2 ltac:(lia)).
  pose proof (Z.mod_pos_bound width 2 ltac:(lia)).
  pose proof (Z.div_mod screenheight 2 ltac:(lia)).
  pose proof (Z.mod_pos_bound screenheight 2 ltac:(lia)).
  pose proof (Z.div_mod height 2 ltac:(lia)).
  pose proof (Z.mod_pos_bound height 2 ltac:(lia)).
  repeat split; lia.
Qed.

Lemma window_centred_within_a_pixel_witness :
  0 ≤ center_offset 1920 801 ∧ center_window 801 600 1920 1080 = "801x600+560+240".
Proof.
  split.
  - apply (proj1 (proj2 (proj2 (proj2 (window_centred_within_a_pixel 801 600 1920 1080))))).
    lia.
  - reflexivity.
Defined.
